(** * face-match: the gallery index, its builder and the matcher of [app.py]

    A shallow embedding of [load_database], [match_face] and the start-up
    code of [app.py].  Module globals ([face_database], [metadata_mapping],
    [database_loaded]), the file system and the log are threaded through as
    one explicit [state]; the external collaborators (DeepFace, scipy's
    [cosine], [pickle], [json], werkzeug and Flask's [url_for]) are the
    variables of [Section App]. *)

From Stdlib Require Import ZArith String Ascii DecimalString.
From stdpp Require Import base option list sorting gmap strings.

Local Open Scope Z_scope.

(** ** Python string and [os.path] helpers *)

Module Py.

(** [s.rfind(ch)]: index of the last occurrence of [ch], or [-1]. *)
Fixpoint rfind (ch : ascii) (s : string) : Z :=
  match s with
  | EmptyString => -1
  | String c r =>
      let k := rfind ch r in
      if 0 <=? k then k + 1 else if Ascii.eqb c ch then 0 else -1
  end.

(** [ch in s] *)
Fixpoint contains (ch : ascii) (s : string) : bool :=
  match s with
  | EmptyString => false
  | String c r => Ascii.eqb c ch || contains ch r
  end.

(** [s[:i]] and [s[i:]] for an index [i >= 0]. *)
Fixpoint take (n : nat) (s : string) : string :=
  match n, s with
  | S n', String c r => String c (take n' r)
  | _, _ => EmptyString
  end.

Fixpoint drop (n : nat) (s : string) : string :=
  match n, s with
  | S n', String _ r => drop n' r
  | _, _ => s
  end.

Definition slice_to (i : Z) (s : string) : string := take (Z.to_nat i) s.
Definition slice_from (i : Z) (s : string) : string := drop (Z.to_nat i) s.

(** [s.startswith(ch)] and [s.endswith(ch)] for a one-character [ch]. *)
Definition startswith (ch : ascii) (s : string) : bool :=
  match s with
  | String c _ => Ascii.eqb c ch
  | EmptyString => false
  end.

Fixpoint endswith (ch : ascii) (s : string) : bool :=
  match s with
  | EmptyString => false
  | String c EmptyString => Ascii.eqb c ch
  | String _ r => endswith ch r
  end.

(** [str.lower] on the ASCII letters.  No other character lower-cases to a
    letter of the four allowed extensions, so membership in
    [ALLOWED_EXTENSIONS] is decided as in Python. *)
Definition lower_ascii (c : ascii) : ascii :=
  let n := nat_of_ascii c in
  if ((65 <=? n) && (n <=? 90))%nat then ascii_of_nat (n + 32) else c.

Fixpoint lower (s : string) : string :=
  match s with
  | EmptyString => EmptyString
  | String c r => String (lower_ascii c) (lower r)
  end.

(** [str(n)] for a natural number. *)
Definition str_of_nat (n : nat) : string :=
  NilEmpty.string_of_uint (Nat.to_uint n).

(** [os.path.join(a, b)] of [posixpath]. *)
Definition join (a b : string) : string :=
  if startswith "/" b then b
  else if bool_decide (a = "") || endswith "/" a then a +:+ b
  else a +:+ "/" +:+ b.

(** [os.path.basename(p)]: [p[p.rfind('/') + 1:]]. *)
Definition basename (p : string) : string :=
  slice_from (rfind "/" p + 1) p.

(** The loop of [genericpath._splitext] that skips leading dots: [true] as
    soon as a character of [p[sepIndex+1:dotIndex]] is not a dot. *)
Fixpoint has_non_dot (s : string) : bool :=
  match s with
  | EmptyString => false
  | String c r => if Ascii.eqb c "." then has_non_dot r else true
  end.

(** [os.path.splitext(p)] of [posixpath] (separator [/], no alternative
    separator, extension separator [.]). *)
Definition splitext (p : string) : string * string :=
  let sepIndex := rfind "/" p in
  let dotIndex := rfind "." p in
  if sepIndex <? dotIndex then
    if has_non_dot (slice_to (dotIndex - (sepIndex + 1)) (slice_from (sepIndex + 1) p))
    then (slice_to dotIndex p, slice_from dotIndex p)
    else (p, "")
  else (p, "").

End Py.

(** ** Configuration (module constants of [app.py]) *)

Definition UPLOAD_FOLDER : string := "uploads".
Definition DATABASE_PATH : string := "database".
Definition IMAGES_SUBDIR : string := "images".
Definition BEFORE_FOLDER_NAME : string := "before".
Definition AFTER_FOLDER_NAME : string := "after".
Definition DB_PICKLE_FILE : string := Py.join DATABASE_PATH "face_db.pkl".
Definition ALLOWED_EXTENSIONS : gset string := {[ "png"; "jpg"; "jpeg"; "webp" ]}.

(** [allowed_file(filename)]; [filename.rsplit('.', 1)[1]] is the text after
    the last dot. *)
Definition allowed_file (filename : string) : bool :=
  Py.contains "." filename
  && bool_decide (Py.lower (Py.slice_from (Py.rfind "." filename + 1) filename)
                    ∈ ALLOWED_EXTENSIONS).

(** ** Data model *)

(** One object of the metadata document: a JSON object. *)
Abbreviation meta_item := (gmap string string).

Inductive level := DEBUG | INFO | WARNING | ERROR.

(** What [DeepFace.represent] does: it returns a list of embedding objects
    (each carrying its ['embedding']), or raises. *)
Inductive represent_result (float : Type) :=
  | Objs (embedding_objs : list (list float))
  | RaiseValueError (e : string)
  | RaiseException (e : string).
Arguments Objs {float} _.
Arguments RaiseValueError {float} _.
Arguments RaiseException {float} _.

(** A record of [face_database].  [embedding = None] stands for a missing
    value or one that is not an [ndarray]; an [ndarray] is one-dimensional,
    so its shape is its length. *)
Record entry (float : Type) := mk_entry {
  before_path : string;
  after_path : option string;
  embedding : option (list float);
  metadata : option meta_item
}.
Arguments mk_entry {float} _ _ _ _.
Arguments before_path {float} _.
Arguments after_path {float} _.
Arguments embedding {float} _.
Arguments metadata {float} _.

(** An element of [distances] in [match_face]. *)
Record dist_rec (float : Type) := mk_dist { index : nat; distance : float }.
Arguments mk_dist {float} _ _.
Arguments index {float} _.
Arguments distance {float} _.

(** An element of the ['matches'] list of a response. *)
Record match_data (float : Type) := mk_match {
  similarity : float;
  match_before_url : string;
  match_after_url : option string;
  match_metadata : option meta_item
}.
Arguments mk_match {float} _ _ _ _.
Arguments similarity {float} _.
Arguments match_before_url {float} _.
Arguments match_after_url {float} _.
Arguments match_metadata {float} _.

(** The JSON body of a response of [/match]. *)
Record response (float : Type) := mk_response {
  success : bool;
  message : string;
  error_type : option string;
  uploaded_image_url : option string;
  matches : option (list (match_data float))
}.
Arguments mk_response {float} _ _ _ _ _.
Arguments success {float} _.
Arguments message {float} _.
Arguments error_type {float} _.
Arguments uploaded_image_url {float} _.
Arguments matches {float} _.

(** The messages handed to [logger], with the values they interpolate. *)
Inductive log_msg (float : Type) :=
  | DatabaseAlreadyLoaded
  | LoadedMetadata (n : nat)
  | CouldNotLoadMetadata
  | LoadingDatabaseFrom (folder : string)
  | BeforeFolderNotFound (folder : string)
  | ProcessedImages (n : nat)
  | NoFaceOrEmbeddingFailed (filename : string)
  | ValueErrorFor (filename e : string)
  | ErrorProcessing (filename e : string)
  | SkippingNonAllowed (filename : string)
  | LoadingComplete (processed_files failed_files : nat)
  | DatabaseEmptyAfterLoading
  | SavingCache (cache_path : string)
  | CacheSaved
  | ErrorSavingCache
  | NoMatchingAfterImage (base_filename : string)
  | MatchRequestNotReady
  | FileUploaded (uploaded_filepath : string)
  | CouldNotProcessUploaded (filename e : string)
  | UnexpectedErrorProcessingUploaded (filename e : string)
  | SkippingInvalidEmbedding (i : nat)
  | SkippingIncompatibleShape (i db_shape uploaded_shape : nat)
  | ErrorCalculatingDistance (i : nat)
  | NoValidDistances (filename : string)
  | FoundPotentialMatches (n num_matches_to_show : nat)
  | MatchLine (rank db_index : nat) (d s : float) (before : string)
  | ReturningMatches (n : nat) (filename : string)
  | NoMatchesFound (filename : string)
  | ErrorDuringMatching (filename : string)
  | AttemptingCacheLoad (cache_path : string)
  | LoadedFromCache (n : nat)
  | FailedCacheLoad
  | StartingBackgroundLoad
  | LoadedMetadataForCache (n : nat)
  | CouldNotLoadMetadataForCache.
Arguments DatabaseAlreadyLoaded {float}.
Arguments LoadedMetadata {float} _.
Arguments CouldNotLoadMetadata {float}.
Arguments LoadingDatabaseFrom {float} _.
Arguments BeforeFolderNotFound {float} _.
Arguments ProcessedImages {float} _.
Arguments NoFaceOrEmbeddingFailed {float} _.
Arguments ValueErrorFor {float} _ _.
Arguments ErrorProcessing {float} _ _.
Arguments SkippingNonAllowed {float} _.
Arguments LoadingComplete {float} _ _.
Arguments DatabaseEmptyAfterLoading {float}.
Arguments SavingCache {float} _.
Arguments CacheSaved {float}.
Arguments ErrorSavingCache {float}.
Arguments NoMatchingAfterImage {float} _.
Arguments MatchRequestNotReady {float}.
Arguments FileUploaded {float} _.
Arguments CouldNotProcessUploaded {float} _ _.
Arguments UnexpectedErrorProcessingUploaded {float} _ _.
Arguments SkippingInvalidEmbedding {float} _.
Arguments SkippingIncompatibleShape {float} _ _ _.
Arguments ErrorCalculatingDistance {float} _.
Arguments NoValidDistances {float} _.
Arguments FoundPotentialMatches {float} _ _.
Arguments MatchLine {float} _ _ _ _ _.
Arguments ReturningMatches {float} _ _.
Arguments NoMatchesFound {float} _.
Arguments ErrorDuringMatching {float} _.
Arguments AttemptingCacheLoad {float} _.
Arguments LoadedFromCache {float} _.
Arguments FailedCacheLoad {float}.
Arguments StartingBackgroundLoad {float}.
Arguments LoadedMetadataForCache {float} _.
Arguments CouldNotLoadMetadataForCache {float}.

(** Observable effects, in the order they happen: a call of [logger], and a
    call of scipy's [cosine] on the record at position [i]. *)
Inductive event (float : Type) :=
  | Log (lv : level) (m : log_msg float)
  | CallCosine (i : nat).
Arguments Log {float} _ _.
Arguments CallCosine {float} _.

(** The globals of the module, the file system and the effects so far.
    [files] maps the path of a regular file to its content, [dirs] the path
    of a directory to its [os.listdir] enumeration. *)
Record state (float bytes : Type) := mk_state {
  face_database : list (entry float);
  metadata_mapping : gmap string meta_item;
  database_loaded : bool;
  files : gmap string bytes;
  dirs : gmap string (list string);
  trace : list (event float)
}.
Arguments mk_state {float bytes} _ _ _ _ _ _.
Arguments face_database {float bytes} _.
Arguments metadata_mapping {float bytes} _.
Arguments database_loaded {float bytes} _.
Arguments files {float bytes} _.
Arguments dirs {float bytes} _.
Arguments trace {float bytes} _.

(** The uploaded file of a request ([request.files['file']]). *)
Record upload (bytes : Type) := mk_upload {
  filename : string;
  content : bytes
}.
Arguments mk_upload {bytes} _ _.
Arguments filename {bytes} _.
Arguments content {bytes} _.

(** ** The application *)

Section App.

(** Numbers and file contents. *)
Context {float bytes : Type}.

(** Python's [<] on two distances (the only comparison [list.sort] makes),
    and [1 - distance]. *)
Variable flt : float → float → bool.
Variable one_minus : float → float.

(** [scipy.spatial.distance.cosine(u, v)]; [None] when it raises. *)
Variable cosine : list float → list float → option float.

(** [DeepFace.represent(img_path, model_name=MODEL_NAME, enforce_detection,
    detector_backend='retinaface')] on the content found at [img_path]. *)
Variable represent : option bytes → bool → represent_result float.

(** [json.load] and [pickle.load] on a file's content ([None] when they
    raise), and [pickle.dump]. *)
Variable json_load : bytes → option (list meta_item).
Variable pickle_load : bytes → option (list (entry float)).
Variable pickle_dump : list (entry float) → bytes.

(** werkzeug's [secure_filename], and Flask's [url_for] for the two routes
    [database_image] and [uploaded_file] ([None] when it raises). *)
Variable secure_filename : string → string.
Variable url_for_database_image : string → string → option string.
Variable url_for_uploaded_file : string → option string.

(** [os.path.dirname(os.path.abspath(__file__))] *)
Variable BASE_DIR : string.

Definition FULL_UPLOAD_FOLDER : string := Py.join BASE_DIR UPLOAD_FOLDER.
Definition FULL_DATABASE_IMAGES_PATH : string :=
  Py.join (Py.join BASE_DIR DATABASE_PATH) IMAGES_SUBDIR.
Definition FULL_BEFORE_FOLDER : string :=
  Py.join FULL_DATABASE_IMAGES_PATH BEFORE_FOLDER_NAME.
Definition FULL_AFTER_FOLDER : string :=
  Py.join FULL_DATABASE_IMAGES_PATH AFTER_FOLDER_NAME.

Local Abbreviation State := (state float bytes).
Local Abbreviation Entry := (entry float).

(** *** State updates *)

Definition log (lv : level) (m : log_msg float) (st : State) : State :=
  mk_state (face_database st) (metadata_mapping st) (database_loaded st)
           (files st) (dirs st) (trace st ++ [Log lv m]).

Definition emit (evs : list (event float)) (st : State) : State :=
  mk_state (face_database st) (metadata_mapping st) (database_loaded st)
           (files st) (dirs st) (trace st ++ evs).

Definition set_face_database (db : list Entry) (st : State) : State :=
  mk_state db (metadata_mapping st) (database_loaded st)
           (files st) (dirs st) (trace st).

Definition set_metadata_mapping (m : gmap string meta_item) (st : State) : State :=
  mk_state (face_database st) m (database_loaded st)
           (files st) (dirs st) (trace st).

Definition set_database_loaded (b : bool) (st : State) : State :=
  mk_state (face_database st) (metadata_mapping st) b
           (files st) (dirs st) (trace st).

Definition set_files (fs : gmap string bytes) (st : State) : State :=
  mk_state (face_database st) (metadata_mapping st) (database_loaded st)
           fs (dirs st) (trace st).

(** [os.path.exists(p)] *)
Definition path_exists (p : string) (st : State) : bool :=
  bool_decide (is_Some (files st !! p)) || bool_decide (is_Some (dirs st !! p)).

(** [open(p, 'wb')] followed by a write of [data]: it raises ([None]) when
    the directory [parent] of [p] does not exist.  The other ways a write
    can fail (a directory at [p], missing permissions, a full disk) are not
    modelled: in such a state the model takes the success branch.  The
    listing of [parent] is left as it is. *)
Definition write_file (parent p : string) (data : bytes) (st : State) : option State :=
  if bool_decide (is_Some (dirs st !! parent))
  then Some (set_files (<[p := data]> (files st)) st)
  else None.

(** [if os.path.exists(p): os.remove(p)].  [os.remove] raises on a
    directory; the model has no failing removal, so it is the code's
    behaviour only where no directory sits at [p]. *)
Definition remove_if_exists (p : string) (st : State) : State :=
  if path_exists p st then set_files (delete p (files st)) st else st.

(** *** [load_database] *)

(** [{item['case_id']: item for item in metadata_list}]; [None] when an item
    has no ['case_id'] (a [KeyError]). *)
Fixpoint case_id_mapping (metadata_list : list meta_item)
    (acc : gmap string meta_item) : option (gmap string meta_item) :=
  match metadata_list with
  | [] => Some acc
  | item :: rest =>
      match item !! "case_id" with
      | Some k => case_id_mapping rest (<[k := item]> acc)
      | None => None
      end
  end.

(** The [try] block that reads [scraped_data.json]: the mapping, or [None]
    when anything in it raised. *)
Definition read_metadata (st : State) : option (gmap string meta_item) :=
  let metadata_file := Py.join (Py.join BASE_DIR DATABASE_PATH) "scraped_data.json" in
  data ← files st !! metadata_file;
  metadata_list ← json_load data;
  case_id_mapping metadata_list ∅.

Definition find_corresponding_after_image (before_filename_full_path : string)
    (st : State) : option string * State :=
  let base_filename := Py.basename before_filename_full_path in
  let after_path := Py.join FULL_AFTER_FOLDER base_filename in
  if path_exists after_path st then (Some after_path, st)
  else (None, log WARNING (NoMatchingAfterImage base_filename) st).

(** The locals of the loop of [load_database]. *)
Record build_acc := mk_acc {
  temp_database : list Entry;
  processed_files : nat;
  failed_files : nat;
  acc_state : State
}.

(** One iteration of [for filename in os.listdir(FULL_BEFORE_FOLDER)]. *)
Definition process_file (acc : build_acc) (filename : string) : build_acc :=
  let st := acc_state acc in
  if allowed_file filename then
    let before_path_full := Py.join FULL_BEFORE_FOLDER filename in
    match represent (files st !! before_path_full) false with
    | Objs (embedding :: _) =>
        let '(after_path_full, st) := find_corresponding_after_image before_path_full st in
        let before_path_relative := Py.join BEFORE_FOLDER_NAME filename in
        let after_path_relative :=
          (λ p, Py.join AFTER_FOLDER_NAME (Py.basename p)) <$> after_path_full in
        let case_id := (Py.splitext filename).1 in
        let entry_metadata := metadata_mapping st !! case_id in
        let processed := S (processed_files acc) in
        mk_acc (temp_database acc ++
                  [mk_entry before_path_relative after_path_relative
                            (Some embedding) entry_metadata])
               processed (failed_files acc)
               (if bool_decide (processed `mod` 10 = 0)%nat
                then log INFO (ProcessedImages processed) st else st)
    | Objs [] =>
        mk_acc (temp_database acc) (processed_files acc) (S (failed_files acc))
               (log WARNING (NoFaceOrEmbeddingFailed filename) st)
    | RaiseValueError e =>
        mk_acc (temp_database acc) (processed_files acc) (S (failed_files acc))
               (log WARNING (ValueErrorFor filename e) st)
    | RaiseException e =>
        mk_acc (temp_database acc) (processed_files acc) (S (failed_files acc))
               (log ERROR (ErrorProcessing filename e) st)
    end
  else
    mk_acc (temp_database acc) (processed_files acc) (failed_files acc)
           (log DEBUG (SkippingNonAllowed filename) st).

(** The cache write that ends [load_database]. *)
Definition save_cache (st : State) : State :=
  let cache_path := Py.join BASE_DIR DB_PICKLE_FILE in
  let st := log INFO (SavingCache cache_path) st in
  match write_file (Py.join BASE_DIR DATABASE_PATH) cache_path
                   (pickle_dump (face_database st)) st with
  | Some st => log INFO CacheSaved st
  | None => log ERROR ErrorSavingCache st
  end.

(** [os.path.exists(FULL_BEFORE_FOLDER)] is read as "the folder is there":
    a regular file at that path, on which [os.listdir] raises, is outside
    the model. *)
Definition load_database (st : State) : State :=
  if database_loaded st then log INFO DatabaseAlreadyLoaded st
  else
    let st :=
      match read_metadata st with
      | Some m => log INFO (LoadedMetadata (size m)) (set_metadata_mapping m st)
      | None => set_metadata_mapping ∅ (log WARNING CouldNotLoadMetadata st)
      end in
    let st := log INFO (LoadingDatabaseFrom FULL_BEFORE_FOLDER) st in
    match dirs st !! FULL_BEFORE_FOLDER with
    | None =>
        set_database_loaded true (log ERROR (BeforeFolderNotFound FULL_BEFORE_FOLDER) st)
    | Some listing =>
        let acc := foldl process_file (mk_acc [] 0 0 st) listing in
        let st := set_face_database (temp_database acc) (acc_state acc) in
        let st := set_database_loaded true st in
        let st := log INFO (LoadingComplete (processed_files acc) (failed_files acc)) st in
        let st := if bool_decide (face_database st = [])
                  then log WARNING DatabaseEmptyAfterLoading st else st in
        save_cache st
    end.

(** *** [match_face] *)

Definition failure (msg : string) (err : option string) : response float :=
  mk_response false msg err None None.

(** One iteration of [for i, db_entry in enumerate(face_database)]: the loop
    touches nothing but [distances] and the effects it adds. *)
Definition scan_entry (uploaded_embedding : list float)
    (acc : list (dist_rec float) * list (event float)) (i : nat) (db_entry : Entry)
    : list (dist_rec float) * list (event float) :=
  let '(distances, evs) := acc in
  match embedding db_entry with
  | None => (distances, evs ++ [Log WARNING (SkippingInvalidEmbedding i)])
  | Some db_embedding =>
      if bool_decide (length db_embedding ≠ length uploaded_embedding) then
        (distances,
         evs ++ [Log WARNING (SkippingIncompatibleShape i (length db_embedding)
                                                        (length uploaded_embedding))])
      else
        let evs := evs ++ [CallCosine i] in
        match cosine uploaded_embedding db_embedding with
        | Some d => (distances ++ [mk_dist i d], evs)
        | None => (distances, evs ++ [Log ERROR (ErrorCalculatingDistance i)])
        end
  end.

Fixpoint scan (uploaded_embedding : list float) (db : list Entry) (i : nat)
    (acc : list (dist_rec float) * list (event float))
    : list (dist_rec float) * list (event float) :=
  match db with
  | [] => acc
  | db_entry :: rest =>
      scan uploaded_embedding rest (S i) (scan_entry uploaded_embedding acc i db_entry)
  end.

(** [distances.sort(key=lambda x: x['distance'])]: Python's sort is stable
    and compares keys with [<] only.  [x] comes from before [l] in the
    original order and is put in front of the first element that is not
    smaller than it.  Where [<] is a strict weak order on the keys this is
    the one stable sorted arrangement ([sort_by_distance_unique]), so it is
    what [list.sort] returns; with a NaN among the keys [list.sort] gives an
    arrangement that depends on its merge strategy, and the two agree only
    on [sortable] lists. *)
Fixpoint insert_by_distance (x : dist_rec float) (l : list (dist_rec float))
    : list (dist_rec float) :=
  match l with
  | [] => [x]
  | y :: r =>
      if flt (distance y) (distance x) then y :: insert_by_distance x r
      else x :: y :: r
  end.

Definition sort_by_distance (l : list (dist_rec float)) : list (dist_rec float) :=
  foldr insert_by_distance [] l.

(** Python's [<] is a strict weak order on the floats of [ordered]; for IEEE
    floats these are all the values but NaN. *)
Definition strict_weak_order (ordered : float → Prop) : Prop :=
  (∀ x y, ordered x → ordered y → flt x y = true → flt y x = false)
  ∧ (∀ x y z, ordered x → ordered y → ordered z →
       flt x z = true → flt x y = true ∨ flt y z = true).

(** The distances of [l] are floats that [<] orders (no NaN among them): the
    lists on which the result of [list.sort] is determined. *)
Definition sortable (l : list (dist_rec float)) : Prop :=
  ∃ ordered, strict_weak_order ordered ∧ Forall (λ d, ordered (distance d)) l.

(** [for i in range(num_matches_to_show)], over [distances[:num]]; [None]
    when an exception left the loop. *)
Fixpoint prepare_matches (top : list (dist_rec float)) (i : nat)
    (top_matches_data : list (match_data float)) (st : State)
    : option (list (match_data float)) * State :=
  match top with
  | [] => (Some top_matches_data, st)
  | match_info :: rest =>
      let db_index := index match_info in
      let d := distance match_info in
      let s := one_minus d in
      match face_database st !! db_index with
      | None => (None, st)
      | Some db_entry =>
          let st := log INFO (MatchLine (S i) db_index d s (before_path db_entry)) st in
          let before_filename :=
            if bool_decide (before_path db_entry = "") then "invalid"
            else Py.basename (before_path db_entry) in
          match url_for_database_image BEFORE_FOLDER_NAME before_filename with
          | None => (None, st)
          | Some before_url =>
              let after_filename :=
                match after_path db_entry with
                | Some p => if bool_decide (p = "") then None else Some (Py.basename p)
                | None => None
                end in
              let after_url :=
                match after_filename with
                | Some f =>
                    if bool_decide (f = "") then Some None
                    else Some <$> url_for_database_image AFTER_FOLDER_NAME f
                | None => Some None
                end in
              match after_url with
              | None => (None, st)
              | Some after_url =>
                  prepare_matches rest (S i)
                    (top_matches_data ++
                       [mk_match s before_url after_url (metadata db_entry)])
                    st
              end
          end
      end
  end.

(** The body of the outer [try] of [match_face]: the response it returns,
    or [None] when an exception reaches the outer [except]. *)
Definition match_body (file : upload bytes) (filename uploaded_filepath : string)
    (st : State) : option (response float) * State :=
  match write_file FULL_UPLOAD_FOLDER uploaded_filepath (content file) st with
  | None => (None, st)
  | Some st =>
      let st := log INFO (FileUploaded uploaded_filepath) st in
      let no_face (e : string) :=
        let st := log WARNING (CouldNotProcessUploaded filename e) st in
        let st := remove_if_exists uploaded_filepath st in
        (Some (failure ("Could not process image: " +:+ e) None), st) in
      match represent (files st !! uploaded_filepath) true with
      | RaiseValueError e => no_face e
      | Objs [] => no_face "No face detected in uploaded image."
      | RaiseException e =>
          let st := log ERROR (UnexpectedErrorProcessingUploaded filename e) st in
          let st := remove_if_exists uploaded_filepath st in
          (Some (failure "An unexpected error occurred during image processing." None), st)
      | Objs (uploaded_embedding :: _) =>
          let '(distances, evs) := scan uploaded_embedding (face_database st) 0 ([], []) in
          let st := emit evs st in
          if bool_decide (distances = []) then
            let st := log WARNING (NoValidDistances filename) st in
            let st := remove_if_exists uploaded_filepath st in
            (Some (failure "Could not compare with database entries."
                           (Some "DB_COMPARE_ERROR")), st)
          else
            let distances := sort_by_distance distances in
            let num_matches_to_show := (3 `min` length distances)%nat in
            let st := log INFO (FoundPotentialMatches (length distances)
                                                      num_matches_to_show) st in
            match prepare_matches (take num_matches_to_show distances) 0 [] st with
            | (None, st) => (None, st)
            | (Some top_matches_data, st) =>
                match url_for_uploaded_file filename with
                | None => (None, st)
                | Some uploaded_url =>
                    if bool_decide (0 < num_matches_to_show)%nat then
                      let st := log INFO (ReturningMatches num_matches_to_show filename) st in
                      (Some (mk_response true
                               (Py.str_of_nat num_matches_to_show +:+ " matches found.")
                               None (Some uploaded_url) (Some top_matches_data)), st)
                    else
                      let st := log INFO (NoMatchesFound filename) st in
                      let st := remove_if_exists uploaded_filepath st in
                      (Some (failure "No suitable matches found in the database."
                                     (Some "NO_MATCH_FOUND")), st)
                end
            end
      end
  end.

(** The handler of [POST /match]; [req_file] is [request.files.get('file')]. *)
Definition match_face (req_file : option (upload bytes)) (st : State)
    : response float * State :=
  if negb (database_loaded st) || bool_decide (face_database st = []) then
    (failure "Face database is not ready. Please wait or contact administrator." None,
     log WARNING MatchRequestNotReady st)
  else
    match req_file with
    | None => (failure "No file part in the request." None, st)
    | Some file =>
        if bool_decide (filename file = "") then
          (failure "No selected file." None, st)
        else if allowed_file (filename file) then
          let filename := secure_filename (filename file) in
          let uploaded_filepath := Py.join FULL_UPLOAD_FOLDER filename in
          match match_body file filename uploaded_filepath st with
          | (Some resp, st) => (resp, st)
          | (None, st) =>
              let st := log ERROR (ErrorDuringMatching filename) st in
              let st := remove_if_exists uploaded_filepath st in
              (failure "An internal server error occurred." None, st)
          end
        else (failure "File type not allowed." None, st)
    end.

(** *** Start-up ([if __name__ == '__main__'], from the cache load on) *)

(** The attempt to load [face_db.pkl], and then either the metadata reload
    or the start of the background load; the flag tells whether the thread
    running [load_database] was started. *)
Definition startup (st : State) : State * bool :=
  let cache_file_path := Py.join BASE_DIR DB_PICKLE_FILE in
  let '(st, loaded_from_cache) :=
    if path_exists cache_file_path st then
      let st := log INFO (AttemptingCacheLoad cache_file_path) st in
      match files st !! cache_file_path ≫= pickle_load with
      | Some db =>
          let st := set_face_database db st in
          let st := set_database_loaded true st in
          (log INFO (LoadedFromCache (length db)) st, true)
      | None =>
          (set_database_loaded false (log WARNING FailedCacheLoad st), false)
      end
    else (st, false) in
  if loaded_from_cache then
    match read_metadata st with
    | Some m => (log INFO (LoadedMetadataForCache (size m)) (set_metadata_mapping m st), false)
    | None => (set_metadata_mapping ∅ (log WARNING CouldNotLoadMetadataForCache st), false)
    end
  else
    let st := log INFO StartingBackgroundLoad st in
    (set_metadata_mapping ∅ st, true).

(** The positions on which [cosine] was called, read off a trace. *)
Definition cosine_calls (tr : list (event float)) : list nat :=
  omap (λ ev, match ev with CallCosine i => Some i | Log _ _ => None end) tr.

(** The identifier of a record: the stem of its before image's file name. *)
Definition identifier (e : Entry) : string :=
  (Py.splitext (Py.basename (before_path e))).1.

(** ** Properties *)

(** *** State bookkeeping *)

Lemma log_emit lv m st : log lv m st = emit [Log lv m] st.
Proof. reflexivity. Qed.

Lemma emit_emit a b st : emit a (emit b st) = emit (b ++ a) st.
Proof. unfold emit; simpl. by rewrite <-(assoc_L (++)). Qed.

Lemma emit_nil st : emit [] st = st.
Proof. destruct st; unfold emit; simpl. by rewrite (right_id_L [] (++)). Qed.

Lemma cosine_calls_app a b :
  cosine_calls (a ++ b) = cosine_calls a ++ cosine_calls b.
Proof. apply omap_app. Qed.

Lemma files_remove_if_exists p st : files (remove_if_exists p st) !! p = None.
Proof.
  unfold remove_if_exists, path_exists.
  destruct (bool_decide (is_Some (files st !! p))) eqn:Hf; simpl.
  - apply lookup_delete_eq.
  - apply bool_decide_eq_false in Hf.
    destruct (bool_decide _); simpl; [apply lookup_delete_eq|].
    by apply eq_None_not_Some.
Qed.

Lemma remove_if_exists_frame p st :
  face_database (remove_if_exists p st) = face_database st
  ∧ metadata_mapping (remove_if_exists p st) = metadata_mapping st
  ∧ database_loaded (remove_if_exists p st) = database_loaded st
  ∧ trace (remove_if_exists p st) = trace st.
Proof. unfold remove_if_exists. by destruct (path_exists p st). Qed.

(** *** The build guard *)

(** C6: when [database_loaded] is already set, [load_database] only logs
    "Database already loaded." and returns: the gallery index, the metadata
    mapping, the loaded flag and the file system are those of before. *)
Theorem load_database_already_loaded (st : State) :
  database_loaded st = true →
  load_database st = log INFO DatabaseAlreadyLoaded st
  ∧ face_database (load_database st) = face_database st
  ∧ metadata_mapping (load_database st) = metadata_mapping st
  ∧ database_loaded (load_database st) = true
  ∧ files (load_database st) = files st
  ∧ dirs (load_database st) = dirs st.
Proof.
  intros Hloaded. unfold load_database. rewrite Hloaded. by repeat split.
Qed.

(** *** The result loop of [match_face] *)

(** A returned match [m] presents the scored record [d]: its similarity is
    [1 - distance], and its metadata is that of the record at [d]'s index. *)
Definition presents (st : State) (m : match_data float) (d : dist_rec float) : Prop :=
  similarity m = one_minus (distance d)
  ∧ ∃ e, face_database st !! index d = Some e ∧ match_metadata m = metadata e.

Lemma prepare_matches_spec (top : list (dist_rec float)) :
  ∀ i acc st,
    ∃ post,
      (prepare_matches top i acc st).2 = emit post st
      ∧ cosine_calls post = []
      ∧ ∀ ms, (prepare_matches top i acc st).1 = Some ms →
          ∃ new, ms = acc ++ new ∧ Forall2 (presents st) new top.
Proof.
  induction top as [|d top IH]; intros i acc st; simpl.
  - exists []. rewrite emit_nil. split_and!; [done..|].
    intros ms [= <-]. exists []. by rewrite (right_id_L [] (++)).
  - destruct (face_database st !! index d) as [e|] eqn:He; simpl.
    2:{ exists []. rewrite emit_nil. by split_and!. }
    set (l := Log INFO (MatchLine (S i) (index d) (distance d)
                          (one_minus (distance d)) (before_path e))).
    destruct (url_for_database_image BEFORE_FOLDER_NAME _) as [bu|]; simpl.
    2:{ exists [l]. by split_and!. }
    match goal with
    | |- context [match ?x with Some _ => _ | None => (None, _) end] =>
        destruct x as [au|] eqn:Hau
    end.
    2:{ exists [l]. by split_and!. }
    destruct (IH (S i) (acc ++ [mk_match (one_minus (distance d)) bu au (metadata e)])
                (log INFO (MatchLine (S i) (index d) (distance d)
                             (one_minus (distance d)) (before_path e)) st))
      as (post & Hst & Hcalls & Hms).
    exists (l :: post). split_and!.
    + rewrite Hst. rewrite log_emit, emit_emit. done.
    + done.
    + intros ms Hret. destruct (Hms ms Hret) as (new & -> & Hnew).
      exists (mk_match (one_minus (distance d)) bu au (metadata e) :: new).
      split; [by rewrite <-(assoc_L (++))|].
      constructor; [|done].
      split; [done|]. by exists e.
Qed.

(** *** The handler, once the upload is accepted *)

(** The request passes the checks that precede [file.save], and the upload
    folder exists, so the save succeeds. *)
Definition accepted (file : upload bytes) (st : State) : Prop :=
  database_loaded st = true
  ∧ face_database st ≠ []
  ∧ filename file ≠ ""
  ∧ allowed_file (filename file) = true
  ∧ is_Some (dirs st !! FULL_UPLOAD_FOLDER).

(** Where [match_face] saves the upload. *)
Definition uploaded_filepath (file : upload bytes) : string :=
  Py.join FULL_UPLOAD_FOLDER (secure_filename (filename file)).

Lemma length_insert_by_distance x l :
  length (insert_by_distance x l) = S (length l).
Proof.
  induction l as [|y l IH]; simpl; [done|].
  destruct (flt _ _); simpl; by rewrite ?IH.
Qed.

Lemma length_sort_by_distance l : length (sort_by_distance l) = length l.
Proof.
  induction l as [|x l IH]; simpl; [done|].
  by rewrite length_insert_by_distance, IH.
Qed.

Lemma match_face_accepted file st :
  accepted file st →
  match_face (Some file) st =
    match match_body file (secure_filename (filename file)) (uploaded_filepath file) st with
    | (Some resp, st) => (resp, st)
    | (None, st) =>
        (failure "An internal server error occurred." None,
         remove_if_exists (uploaded_filepath file)
           (log ERROR (ErrorDuringMatching (secure_filename (filename file))) st))
    end.
Proof.
  intros (Hl & Hdb & Hname & Hallowed & _). unfold match_face.
  rewrite Hl, Hallowed. simpl.
  rewrite (bool_decide_eq_false_2 _ Hdb), (bool_decide_eq_false_2 _ Hname).
  done.
Qed.

(** The state right after [file.save] and its log line. *)
Definition saved (file : upload bytes) (st : State) : State :=
  log INFO (FileUploaded (uploaded_filepath file))
      (set_files (<[uploaded_filepath file := content file]> (files st)) st).

Lemma saved_lookup file st :
  files (saved file st) !! uploaded_filepath file = Some (content file).
Proof. apply lookup_insert_eq. Qed.

Lemma remove_saved_emit file st evs :
  remove_if_exists (uploaded_filepath file) (emit evs (saved file st))
  = set_files (delete (uploaded_filepath file) (files (saved file st)))
              (emit evs (saved file st)).
Proof.
  unfold remove_if_exists, path_exists. simpl.
  rewrite lookup_insert_eq. by rewrite bool_decide_eq_true_2.
Qed.

(** When the strict call of the provider gives no embedding, the handler
    answers with a failure, removes the upload and scans nothing. *)
Lemma match_face_embedding_failed file st :
  accepted file st →
  (∀ q rest, represent (Some (content file)) true ≠ Objs (q :: rest)) →
  ∃ msg lv m,
    match_face (Some file) st
    = (failure msg None,
       set_files (delete (uploaded_filepath file) (files (saved file st)))
                 (emit [Log lv m] (saved file st)))
    ∧ match represent (Some (content file)) true with
      | RaiseValueError e =>
          msg = "Could not process image: " +:+ e
      | Objs _ =>
          msg = "Could not process image: No face detected in uploaded image."
      | RaiseException _ =>
          msg = "An unexpected error occurred during image processing."
      end.
Proof.
  intros Hacc Hnone. rewrite (match_face_accepted _ _ Hacc).
  destruct Hacc as (_ & _ & _ & _ & Hdir).
  unfold match_body, write_file. rewrite (bool_decide_eq_true_2 _ Hdir).
  fold (saved file st). rewrite saved_lookup.
  destruct (represent (Some (content file)) true) as [[|q rest]|e|e] eqn:Hr.
  - eexists _, _, _. split; [|done].
    rewrite !log_emit, remove_saved_emit. done.
  - by destruct (Hnone q rest).
  - eexists _, _, _. split; [|done].
    rewrite !log_emit, remove_saved_emit. done.
  - eexists _, _, _. split; [|done].
    rewrite !log_emit, remove_saved_emit. done.
Qed.

(** When the strict call gives an embedding [q], the handler scans the whole
    index and then answers in one of three ways: no distance at all, an
    exception on the way to the response, or the ranked matches. *)
Lemma match_face_scanned file st q rest :
  accepted file st →
  represent (Some (content file)) true = Objs (q :: rest) →
  let distances := (scan q (face_database st) 0 ([], [])).1 in
  let evs := (scan q (face_database st) 0 ([], [])).2 in
  let top := take (3 `min` length (sort_by_distance distances))%nat
                  (sort_by_distance distances) in
  ∃ post resp fs,
    match_face (Some file) st
    = (resp, set_files fs (emit (evs ++ post) (saved file st)))
    ∧ cosine_calls post = []
    ∧ ((distances = []
        ∧ resp = failure "Could not compare with database entries."
                         (Some "DB_COMPARE_ERROR")
        ∧ fs !! uploaded_filepath file = None)
       ∨ (distances ≠ []
          ∧ resp = failure "An internal server error occurred." None
          ∧ fs !! uploaded_filepath file = None
          ∧ ((∃ st1, face_database st1 = face_database st
                     ∧ (prepare_matches top 0 [] st1).1 = None)
             ∨ url_for_uploaded_file (secure_filename (filename file)) = None))
       ∨ (distances ≠ []
          ∧ fs !! uploaded_filepath file = Some (content file)
          ∧ ∃ url ms,
              resp = mk_response true
                       (Py.str_of_nat (length top) +:+ " matches found.")
                       None (Some url) (Some ms)
              ∧ Forall2 (presents st) ms top)).
Proof.
  intros Hacc Hr distances evs top. rewrite (match_face_accepted _ _ Hacc).
  destruct Hacc as (_ & _ & _ & _ & Hdir).
  unfold match_body, write_file. rewrite (bool_decide_eq_true_2 _ Hdir).
  fold (saved file st). rewrite saved_lookup, Hr.
  change (face_database (saved file st)) with (face_database st).
  subst distances evs top.
  destruct (scan q (face_database st) 0 ([], [])) as [distances evs].
  cbn [fst snd]. lazy beta iota zeta.
  case_bool_decide as Hd.
  { exists [Log WARNING (NoValidDistances (secure_filename (filename file)))].
    eexists _, _. split_and!; [|done|left; split_and!; [done..|]].
    - rewrite log_emit, emit_emit, remove_saved_emit.
      unfold set_files, emit; simpl. reflexivity.
    - apply lookup_delete_eq. }
  set (ds := sort_by_distance distances).
  set (n := (3 `min` length ds)%nat).
  set (st1 := log INFO (FoundPotentialMatches (length ds) n) (emit evs (saved file st))).
  destruct (prepare_matches_spec (take n ds) 0 [] st1) as (post & Hst & Hcalls & Hms).
  destruct (prepare_matches (take n ds) 0 [] st1) as [[ms|] st2] eqn:Hprep;
    cbn [fst snd] in Hst, Hms; subst st2.
  2:{ eexists (_ :: post ++ [_]), _, _. split_and!; [|..|right; left; split_and!; [done..| |]].
      - subst st1. rewrite !log_emit, !emit_emit.
        rewrite remove_saved_emit.
        unfold set_files, emit; simpl. reflexivity.
      - simpl. by rewrite cosine_calls_app, Hcalls.
      - apply lookup_delete_eq.
      - left. exists st1. split; [done|]. by rewrite Hprep. }
  destruct (Hms ms eq_refl) as (new & Hnew & Hpres). simpl in Hnew. subst new.
  destruct (url_for_uploaded_file _) as [url|] eqn:Hurl.
  2:{ eexists (_ :: post ++ [_]), _, _. split_and!; [|..|right; left; split_and!; [done..| |]].
      - subst st1. rewrite !log_emit, !emit_emit.
        rewrite remove_saved_emit.
        unfold set_files, emit; simpl. reflexivity.
      - simpl. by rewrite cosine_calls_app, Hcalls.
      - apply lookup_delete_eq.
      - by right. }
  assert (0 < n)%nat as Hn.
  { subst n ds. rewrite length_sort_by_distance.
    destruct distances; simpl; [done|lia]. }
  rewrite (bool_decide_eq_true_2 _ Hn).
  eexists (_ :: post ++ [_]), _, (files (saved file st)).
  split_and!; [|..|right; right; split_and!; [done|apply saved_lookup|]].
  - subst st1. rewrite !log_emit, !emit_emit.
    unfold set_files, emit; simpl. reflexivity.
  - simpl. by rewrite cosine_calls_app, Hcalls.
  - exists url, ms. split; [|done].
    rewrite length_take. replace (n `min` length ds)%nat with n by lia. done.
Qed.

(** *** The scan of the index *)

(** A record the scan compares with the query [q]: its embedding is an array
    of the query's shape. *)
Definition comparable (q : list float) (e : Entry) : Prop :=
  ∃ v, embedding e = Some v ∧ length v = length q.

(** The warning the scan logs when it skips the record at position [i]. *)
Definition skip_warning (q : list float) (i : nat) (e : Entry) : event float :=
  match embedding e with
  | None => Log WARNING (SkippingInvalidEmbedding i)
  | Some v => Log WARNING (SkippingIncompatibleShape i (length v) (length q))
  end.

Global Instance comparable_dec q e : Decision (comparable q e).
Proof.
  unfold comparable. destruct (embedding e) as [v|].
  - destruct (decide (length v = length q)) as [Hlen|Hlen].
    + left. by exists v.
    + right. by intros (? & [= <-] & ?).
  - right. by intros (? & ? & _).
Defined.

Lemma cosine_calls_skip_warning q i e : cosine_calls [skip_warning q i e] = [].
Proof. unfold skip_warning. by destruct (embedding e). Qed.

Lemma scan_entry_spec q ds0 evs0 i e :
  ∃ n1 e1,
    scan_entry q (ds0, evs0) i e = (ds0 ++ n1, evs0 ++ e1)
    ∧ (if decide (comparable q e) then cosine_calls e1 = [i]
       else e1 = [skip_warning q i e])
    ∧ (n1 = [] ∨ ∃ d v, n1 = [mk_dist i d] ∧ embedding e = Some v
                        ∧ length v = length q ∧ cosine q v = Some d)
    ∧ (∀ v, embedding e = Some v → length v = length q →
         match cosine q v with
         | Some d => n1 = [mk_dist i d]
         | None => Log ERROR (ErrorCalculatingDistance i) ∈ e1
         end).
Proof.
  unfold scan_entry, skip_warning.
  destruct (decide (comparable q e)) as [(v & Hv & Hlen)|Hc].
  - rewrite Hv. rewrite bool_decide_eq_false_2 by (by intros ?).
    destruct (cosine q v) as [d|] eqn:Hcos.
    + exists [mk_dist i d], [CallCosine i]. split_and!; [done..| |].
      * right. by exists d, v.
      * intros ? [= <-] _. by rewrite Hcos.
    + exists [], [CallCosine i; Log ERROR (ErrorCalculatingDistance i)].
      rewrite (right_id_L [] (++)), <-(assoc_L (++)).
      split_and!; [done..|by left|].
      intros ? [= <-] _. rewrite Hcos. by repeat constructor.
  - destruct (embedding e) as [v|] eqn:Hv.
    + case_bool_decide as Hlen.
      * exists [], [Log WARNING (SkippingIncompatibleShape i (length v) (length q))].
        rewrite (right_id_L [] (++)). split_and!; [done..|by left|].
        by intros ? [= <-] ?.
      * destruct Hc. exists v. split; [done|].
        destruct (decide (length v = length q)); [done|by destruct Hlen].
    + exists [], [Log WARNING (SkippingInvalidEmbedding i)].
      rewrite (right_id_L [] (++)). split_and!; [done..|by left|done].
Qed.

Lemma scan_spec (q : list float) (db : list Entry) :
  ∀ i ds0 evs0,
    ∃ new new_evs,
      scan q db i (ds0, evs0) = (ds0 ++ new, evs0 ++ new_evs)
      ∧ (∀ k, k ∈ cosine_calls new_evs ↔
              ∃ j e, k = (i + j)%nat ∧ db !! j = Some e ∧ comparable q e)
      ∧ (∀ j e, db !! j = Some e → ¬ comparable q e →
              skip_warning q (i + j) e ∈ new_evs)
      ∧ (∀ d, d ∈ new →
              ∃ j e v, index d = (i + j)%nat ∧ db !! j = Some e
                       ∧ embedding e = Some v ∧ length v = length q
                       ∧ cosine q v = Some (distance d))
      ∧ (∀ j e v, db !! j = Some e → embedding e = Some v →
              length v = length q →
              match cosine q v with
              | Some d => mk_dist (i + j) d ∈ new
              | None => Log ERROR (ErrorCalculatingDistance (i + j)) ∈ new_evs
              end)
      ∧ StronglySorted lt (index <$> new)
      ∧ Forall (λ d, i ≤ index d)%nat new.
Proof.
  induction db as [|e db IH]; intros i ds0 evs0; cbn [scan].
  { exists [], []. rewrite !(right_id_L [] (++)). split_and!; try done.
    - intros k. split; [by intros ?%elem_of_nil|]. by intros (j & e & _ & ? & _).
    - by intros d ?%elem_of_nil.
    - constructor. }
  destruct (scan_entry_spec q ds0 evs0 i e) as (n1 & e1 & Hstep & Hev & Hn1 & Hdist).
  rewrite Hstep.
  destruct (IH (S i) (ds0 ++ n1) (evs0 ++ e1))
    as (new & new_evs & Hscan & Hcalls & Hwarn & Hnew & Hall & Hsorted & Hge).
  exists (n1 ++ new), (e1 ++ new_evs).
  rewrite Hscan, <-!(assoc_L (++)). split_and!; [done|..].
  - intros k. rewrite cosine_calls_app, elem_of_app, Hcalls. split.
    + intros [Hk|(j & e' & -> & Hj & Hc)].
      * destruct (decide (comparable q e)) as [Hc|Hc].
        -- rewrite Hev in Hk. apply list_elem_of_singleton in Hk as ->.
           exists 0%nat, e. split_and!; [lia|done..].
        -- rewrite Hev, cosine_calls_skip_warning in Hk. by apply elem_of_nil in Hk.
      * exists (S j), e'. split_and!; [lia|done..].
    + intros ([|j] & e' & -> & Hj & Hc); simpl in Hj.
      * injection Hj as <-. left. rewrite decide_True in Hev by done.
        rewrite Hev, Nat.add_0_r. by apply list_elem_of_singleton.
      * right. exists j, e'. split_and!; [lia|done..].
  - intros [|j] e' Hj Hc; simpl in Hj; apply elem_of_app.
    + injection Hj as <-. left. rewrite decide_False in Hev by done.
      rewrite Hev, Nat.add_0_r. by apply list_elem_of_singleton.
    + right. replace (i + S j)%nat with (S i + j)%nat by lia. by apply Hwarn.
  - intros d [Hd|Hd]%elem_of_app.
    + destruct Hn1 as [->|(d0 & v & -> & Hv & Hlen & Hcos)];
        [by apply elem_of_nil in Hd|].
      apply list_elem_of_singleton in Hd as ->.
      exists 0%nat, e, v. split_and!; [simpl; lia|done..].
    + destruct (Hnew d Hd) as (j & e' & v & Hi & Hj & Hv & Hlen & Hcos).
      exists (S j), e', v. split_and!; [lia|done..].
  - intros [|j] e' v Hj Hv Hlen; simpl in Hj.
    + injection Hj as <-. specialize (Hdist v Hv Hlen). rewrite Nat.add_0_r.
      destruct (cosine q v) as [d|].
      * rewrite Hdist. apply elem_of_app. left. by apply list_elem_of_singleton.
      * apply elem_of_app. by left.
    + specialize (Hall j e' v Hj Hv Hlen).
      replace (i + S j)%nat with (S i + j)%nat by lia.
      destruct (cosine q v); apply elem_of_app; by right.
  - destruct Hn1 as [->|(d0 & v & -> & _)]; simpl; [done|].
    constructor; [done|]. apply Forall_fmap. eapply Forall_impl; [exact Hge|].
    simpl. intros d Hd. lia.
  - apply Forall_app. split.
    + destruct Hn1 as [->|(d0 & v & -> & _)]; [done|]. by constructor.
    + eapply Forall_impl; [exact Hge|]. simpl. intros d Hd. lia.
Qed.

(** *** The ranking *)

(** [a] is ranked before [b]: its distance is not greater, and when neither
    distance is smaller than the other, its index is the smaller one. *)
Definition ranked_before (a b : dist_rec float) : Prop :=
  flt (distance b) (distance a) = false
  ∧ (flt (distance a) (distance b) = true ∨ (index a < index b)%nat).

Lemma insert_by_distance_perm x l : insert_by_distance x l ≡ₚ x :: l.
Proof.
  induction l as [|y l IH]; simpl; [done|].
  destruct (flt _ _); [|done].
  rewrite IH. apply Permutation_swap.
Qed.

Lemma sort_by_distance_perm l : sort_by_distance l ≡ₚ l.
Proof.
  induction l as [|x l IH]; simpl; [done|].
  by rewrite insert_by_distance_perm, IH.
Qed.

Lemma take_min_length {A} (n : nat) (l : list A) :
  take (n `min` length l)%nat l = take n l.
Proof.
  destruct (decide (n ≤ length l)%nat).
  - by rewrite Nat.min_l.
  - rewrite Nat.min_r by lia. rewrite !take_ge; [done|lia..].
Qed.

Section Ranking.

(** The floats that Python's [<] orders: on them it is a strict weak order.
    For IEEE floats these are all the values but NaN. *)
Variable ordered : float → Prop.
Hypothesis flt_asym :
  ∀ x y, ordered x → ordered y → flt x y = true → flt y x = false.
Hypothesis flt_negtrans :
  ∀ x y z, ordered x → ordered y → ordered z →
    flt x z = true → flt x y = true ∨ flt y z = true.

Lemma insert_by_distance_sorted x l :
  ordered (distance x) →
  Forall (λ y, ordered (distance y)) l →
  StronglySorted ranked_before l →
  Forall (λ y, index x < index y)%nat l →
  StronglySorted ranked_before (insert_by_distance x l).
Proof.
  intros Hox Hol Hsorted. revert Hol.
  induction Hsorted as [|y l Hl IH Hy]; intros Hol Hx; simpl.
  { repeat constructor. }
  apply Forall_cons in Hx as [Hxy Hx]. apply Forall_cons in Hol as [Hoy Hol].
  destruct (flt (distance y) (distance x)) eqn:Hlt.
  - constructor; [by apply IH|].
    rewrite insert_by_distance_perm. constructor; [|done].
    split; [by apply flt_asym|by left].
  - constructor; [by constructor|].
    constructor; [split; [done|by right]|].
    rewrite Forall_forall in Hy, Hx, Hol. apply Forall_forall. intros z Hz.
    destruct (Hy z Hz) as [Hzy _]. split; [|right; by apply Hx].
    destruct (flt (distance z) (distance x)) eqn:Hzx; [|done].
    destruct (flt_negtrans (distance z) (distance y) (distance x));
      [by apply Hol|done..|congruence|congruence].
Qed.

(** The sort puts the computed distances in ranking order, when they come
    in index order as the scan produces them. *)
Lemma sort_by_distance_sorted l :
  Forall (λ y, ordered (distance y)) l →
  StronglySorted lt (index <$> l) →
  StronglySorted ranked_before (sort_by_distance l).
Proof.
  induction l as [|x l IH]; simpl; [constructor|].
  intros [Hox Hol]%Forall_cons [Hx Hl]%StronglySorted_cons.
  apply insert_by_distance_sorted; [done| |by apply IH|].
  - by rewrite sort_by_distance_perm.
  - rewrite sort_by_distance_perm.
    change (Forall (lt (index x)) (index <$> l)) in Hx.
    rewrite Forall_fmap in Hx. exact Hx.
Qed.

(** Any arrangement of the same distances that respects the ranking is the
    one [sort_by_distance] gives: a stable sort has one possible result. *)
Lemma sort_by_distance_unique l l' :
  Forall (λ y, ordered (distance y)) l →
  StronglySorted lt (index <$> l) →
  l' ≡ₚ l → StronglySorted ranked_before l' →
  l' = sort_by_distance l.
Proof.
  intros Hol Hl Hperm Hsorted.
  apply (StronglySorted_unique_strong ranked_before);
    [|done|by apply sort_by_distance_sorted|by rewrite sort_by_distance_perm].
  intros a b _ _ [Hba [Hab|Hlt]] [Hab' [Hba'|Hlt']]; try congruence. lia.
Qed.

(** [1 - d] does not increase with [d]. *)
Hypothesis one_minus_antitone :
  ∀ x y, flt y x = false → flt (one_minus x) (one_minus y) = false.

Lemma presents_similarity_sorted st ms top :
  Forall2 (presents st) ms top →
  StronglySorted ranked_before top →
  StronglySorted (λ a b, flt (similarity a) (similarity b) = false) ms.
Proof.
  induction 1 as [|m d ms top [Hm _] Hrest IH]; intros Hsorted; [constructor|].
  apply StronglySorted_cons in Hsorted as [Hd Hsorted].
  constructor; [by apply IH|].
  clear IH Hsorted. induction Hrest as [|m' d' ms top [Hm' _] _ IH]; [done|].
  apply Forall_cons in Hd as [[Hle _] Hd].
  constructor; [|by apply IH].
  rewrite Hm, Hm'. by apply one_minus_antitone.
Qed.

(** C1, as the code has it: when the distances the scan computed are ordered
    floats (none is NaN), the matches of a response are at most 3; they
    present, in order, the first entries of
    the stable sort of those distances, so they come by non-decreasing
    distance (non-increasing similarity) and, where two distances are not
    ordered by [<], by the records' index in the gallery; the response is a
    function of its inputs. *)
Theorem match_face_top3_ranked file st q rest ms :
  accepted file st →
  represent (Some (content file)) true = Objs (q :: rest) →
  Forall (λ d, ordered (distance d)) (scan q (face_database st) 0 ([], [])).1 →
  matches (match_face (Some file) st).1 = Some ms →
  let distances := (scan q (face_database st) 0 ([], [])).1 in
  let top := take 3 (sort_by_distance distances) in
  distances ≠ []
  ∧ (length ms ≤ 3)%nat
  ∧ Forall2 (presents st) ms top
  ∧ sort_by_distance distances ≡ₚ distances
  ∧ StronglySorted ranked_before top
  ∧ StronglySorted (λ a b, flt (similarity a) (similarity b) = false) ms.
Proof.
  intros Hacc Hr Hordered Hms distances top.
  destruct (match_face_scanned file st q rest Hacc Hr)
    as (post & resp & fs & Hresp & _ & Hcases).
  rewrite Hresp in Hms. cbn [fst] in Hms.
  destruct Hcases as [(_ & -> & _)|[(_ & -> & _)|(Hd & _ & url & ms' & -> & Hpres)]];
    [done..|].
  injection Hms as ->. rewrite take_min_length in Hpres.
  fold distances in Hd, Hpres, Hordered. fold top in Hpres.
  assert (StronglySorted ranked_before top) as Htop.
  { destruct (scan_spec q (face_database st) 0 [] [])
      as (new & new_evs & Hscan & _ & _ & _ & _ & Hsorted & _).
    assert (distances = new) as Heq by (unfold distances; by rewrite Hscan).
    rewrite <-Heq in Hsorted.
    apply (sort_by_distance_sorted _ Hordered) in Hsorted.
    rewrite <-(take_drop 3 (sort_by_distance distances)) in Hsorted.
    by apply StronglySorted_app_1_l in Hsorted. }
  split_and!; [done| |done|apply sort_by_distance_perm|done|].
  - rewrite (Forall2_length _ _ _ Hpres). unfold top. rewrite length_take. lia.
  - by eapply presents_similarity_sorted.
Qed.

End Ranking.

(** *** What the scan compares *)

Lemma scan_trace file st q rest :
  accepted file st →
  represent (Some (content file)) true = Objs (q :: rest) →
  ∃ post,
    trace (match_face (Some file) st).2
    = trace st ++ Log INFO (FileUploaded (uploaded_filepath file))
                  :: (scan q (face_database st) 0 ([], [])).2 ++ post
    ∧ cosine_calls post = [].
Proof.
  intros Hacc Hr.
  destruct (match_face_scanned file st q rest Hacc Hr)
    as (post & resp & fs & -> & Hpost & _).
  exists post. split; [|done]. simpl. by rewrite <-(assoc_L (++)).
Qed.

(** C3, as the code has it: the scan hands to [cosine] every record whose
    embedding is an array of the query's shape, whatever its components (a
    zero vector too), and skips with a warning exactly the records whose
    embedding is missing or of another shape.  A call of [cosine] that
    raises is logged as an error and leaves no distance; otherwise its
    result is among the distances. *)
Theorem scan_compares_every_record_of_query_shape file st q rest :
  accepted file st →
  represent (Some (content file)) true = Objs (q :: rest) →
  ∃ evs,
    trace (match_face (Some file) st).2 = trace st ++ evs
    ∧ ∀ i e, face_database st !! i = Some e →
        (i ∈ cosine_calls evs ↔ comparable q e)
        ∧ (¬ comparable q e → skip_warning q i e ∈ evs)
        ∧ ∀ v, embedding e = Some v → length v = length q →
            match cosine q v with
            | Some d => mk_dist i d ∈ (scan q (face_database st) 0 ([], [])).1
            | None =>
                Log ERROR (ErrorCalculatingDistance i) ∈ evs
                ∧ ∀ d, mk_dist i d ∉ (scan q (face_database st) 0 ([], [])).1
            end.
Proof.
  intros Hacc Hr. destruct (scan_trace file st q rest Hacc Hr) as (post & -> & Hpost).
  destruct (scan_spec q (face_database st) 0 [] [])
    as (new & new_evs & -> & Hcalls & Hwarn & Hnew & Hall & _).
  eexists. split; [done|]. cbn [fst snd app].
  intros i e Hi. split_and!.
  - change (?x :: ?l ++ post) with ([x] ++ l ++ post).
    rewrite !cosine_calls_app, Hpost, (right_id_L [] (++)). simpl.
    rewrite Hcalls. split.
    + intros (j & e' & -> & Hj & Hc). simpl in Hi. by simplify_eq.
    + intros Hc. by exists i, e.
  - intros Hc. apply elem_of_cons. right. apply elem_of_app. left.
    by apply (Hwarn i e).
  - intros v Hv Hlen. specialize (Hall i e v Hi Hv Hlen). simpl in Hall.
    destruct (cosine q v) eqn:Hcos; [done|]. split.
    + apply elem_of_cons. right. apply elem_of_app. by left.
    + intros d Hin.
      destruct (Hnew _ Hin) as (j & e' & v' & Hidx & Hj & Hv' & _ & Hcos').
      simpl in Hidx. subst j. rewrite Hi in Hj. injection Hj as <-.
      rewrite Hv in Hv'. injection Hv' as <-. by rewrite Hcos in Hcos'.
Qed.

(** *** No threshold *)



(** *** Detection failure on the query *)

(** C7: when the strict call of the provider finds no face (it raises a
    [ValueError], or returns no embedding object and the handler raises one
    itself), the response is the failure that carries the error's text, the
    only effects are the two log lines, and [cosine] is called on no
    record; the gallery index is left as it was. *)
Theorem match_face_no_face_detected file st e :
  accepted file st →
  represent (Some (content file)) true = RaiseValueError e
  ∨ (represent (Some (content file)) true = Objs []
     ∧ e = "No face detected in uploaded image.") →
  (match_face (Some file) st).1 = failure ("Could not process image: " +:+ e) None
  ∧ trace (match_face (Some file) st).2
    = trace st ++ [Log INFO (FileUploaded (uploaded_filepath file));
                   Log WARNING (CouldNotProcessUploaded
                                  (secure_filename (filename file)) e)]
  ∧ cosine_calls (trace (match_face (Some file) st).2) = cosine_calls (trace st)
  ∧ face_database (match_face (Some file) st).2 = face_database st.
Proof.
  intros Hacc Hr. rewrite (match_face_accepted _ _ Hacc).
  destruct Hacc as (_ & _ & _ & _ & Hdir).
  unfold match_body, write_file. rewrite (bool_decide_eq_true_2 _ Hdir).
  fold (saved file st). rewrite saved_lookup.
  assert (∀ st', trace (remove_if_exists (uploaded_filepath file) st') = trace st'
                 ∧ face_database (remove_if_exists (uploaded_filepath file) st')
                   = face_database st') as Hrm.
  { intros st'. destruct (remove_if_exists_frame (uploaded_filepath file) st')
      as (? & _ & _ & ?). done. }
  destruct Hr as [->|[-> ->]]; cbn [fst snd];
    destruct (Hrm (log WARNING (CouldNotProcessUploaded
                                  (secure_filename (filename file)) e) (saved file st)))
      as [Htr Hdb] ||
    destruct (Hrm (log WARNING (CouldNotProcessUploaded
                                  (secure_filename (filename file))
                                  "No face detected in uploaded image.")
                     (saved file st)))
      as [Htr Hdb];
    rewrite Htr, Hdb; simpl; rewrite <-!(assoc_L (++)), !cosine_calls_app; simpl;
    by rewrite (right_id_L [] (++)).
Qed.

(** *** The uploaded file *)

(** C10: once the upload is saved, every failure response leaves no file at
    the upload's path, and a success response leaves the uploaded content
    there and carries its URL. *)
Theorem match_face_upload_cleanup file st :
  accepted file st →
  let resp := (match_face (Some file) st).1 in
  let st' := (match_face (Some file) st).2 in
  (success resp = false → files st' !! uploaded_filepath file = None)
  ∧ (success resp = true →
       files st' !! uploaded_filepath file = Some (content file)
       ∧ is_Some (uploaded_image_url resp)).
Proof.
  intros Hacc resp st'. subst resp st'.
  destruct (represent (Some (content file)) true) as [[|q rest]|e|e] eqn:Hr.
  2:{ destruct (match_face_scanned file st q rest Hacc Hr)
        as (post & resp & fs & -> & _ & Hcases). cbn [fst snd]. simpl.
      destruct Hcases
        as [(_ & -> & Hfs)|[(_ & -> & Hfs & _)|(_ & Hfs & url & ms & -> & _)]];
        simpl; split; done. }
  all: destruct (match_face_embedding_failed file st Hacc) as (msg & lv & m & -> & _);
    [intros ??; congruence|].
  all: cbn [fst snd]; simpl; split; [intros _; apply lookup_delete_eq|done].
Qed.

(** *** The build loop *)

(** The embedding the lenient call of the provider gives for a file of the
    before folder, when the file is allowed and the call gives one. *)
Definition embedded (st : State) (filename : string) : option (list float) :=
  if allowed_file filename then
    match represent (files st !! Py.join FULL_BEFORE_FOLDER filename) false with
    | Objs (embedding :: _) => Some embedding
    | _ => None
    end
  else None.

(** An allowed file whose embedding failed. *)
Definition failed_file (st : State) (filename : string) : bool :=
  allowed_file filename
  && match embedded st filename with Some _ => false | None => true end.

(** The record of a file with embedding [v], under the metadata mapping [m]:
    its after image is the file of the same name in the after folder, when
    there is one. *)
Definition record_of (m : gmap string meta_item) (st : State) (filename : string)
    (v : list float) : Entry :=
  let after_path_full :=
    Py.join FULL_AFTER_FOLDER (Py.basename (Py.join FULL_BEFORE_FOLDER filename)) in
  mk_entry (Py.join BEFORE_FOLDER_NAME filename)
           (if path_exists after_path_full st
            then Some (Py.join AFTER_FOLDER_NAME (Py.basename after_path_full))
            else None)
           (Some v)
           (m !! (Py.splitext filename).1).

Lemma process_file_spec acc f :
  ∃ evs,
    process_file acc f
    = mk_acc (temp_database acc
                ++ option_list (record_of (metadata_mapping (acc_state acc))
                                          (acc_state acc) f
                                  <$> embedded (acc_state acc) f))
             (processed_files acc
                + length (option_list (embedded (acc_state acc) f)))
             (failed_files acc + if failed_file (acc_state acc) f then 1 else 0)
             (emit evs (acc_state acc)).
Proof.
  unfold process_file, failed_file, embedded, record_of.
  destruct (allowed_file f); simpl.
  2:{ eexists [_]. rewrite (right_id_L [] (++)), !Nat.add_0_r. done. }
  destruct (represent _ false) as [[|v rest]|e|e]; simpl.
  - eexists [_]. rewrite (right_id_L [] (++)), Nat.add_0_r, Nat.add_1_r. done.
  - unfold find_corresponding_after_image.
    destruct (path_exists _ (acc_state acc)); simpl.
    + case_bool_decide.
      * eexists [_]. rewrite Nat.add_0_r, Nat.add_1_r. done.
      * exists []. rewrite emit_nil, Nat.add_0_r, Nat.add_1_r. done.
    + case_bool_decide.
      * eexists [_; _]. rewrite Nat.add_0_r, Nat.add_1_r.
        rewrite !log_emit, emit_emit. done.
      * eexists [_]. rewrite Nat.add_0_r, Nat.add_1_r. done.
  - eexists [_]. rewrite (right_id_L [] (++)), Nat.add_0_r, Nat.add_1_r. done.
  - eexists [_]. rewrite (right_id_L [] (++)), Nat.add_0_r, Nat.add_1_r. done.
Qed.

Lemma foldl_process_file listing :
  ∀ acc,
    ∃ evs,
      foldl process_file acc listing
      = mk_acc (temp_database acc
                  ++ omap (λ f, record_of (metadata_mapping (acc_state acc))
                                          (acc_state acc) f
                                  <$> embedded (acc_state acc) f) listing)
               (processed_files acc
                  + length (omap (embedded (acc_state acc)) listing))
               (failed_files acc
                  + length (filter (λ f, failed_file (acc_state acc) f) listing))
               (emit evs (acc_state acc)).
Proof.
  induction listing as [|f listing IH]; intros acc; simpl.
  { exists []. rewrite emit_nil, (right_id_L [] (++)), !Nat.add_0_r. by destruct acc. }
  destruct (process_file_spec acc f) as (evs1 & ->).
  destruct (IH (mk_acc
                  (temp_database acc
                     ++ option_list (record_of (metadata_mapping (acc_state acc))
                                               (acc_state acc) f
                                       <$> embedded (acc_state acc) f))
                  (processed_files acc
                     + length (option_list (embedded (acc_state acc) f)))
                  (failed_files acc + if failed_file (acc_state acc) f then 1 else 0)
                  (emit evs1 (acc_state acc)))) as (evs2 & ->).
  exists (evs1 ++ evs2). cbn [temp_database processed_files failed_files acc_state].
  rewrite emit_emit. f_equal.
  - rewrite <-(assoc_L (++)). f_equal.
    change (embedded (emit evs1 (acc_state acc))) with (embedded (acc_state acc)).
    change (metadata_mapping (emit evs1 (acc_state acc)))
      with (metadata_mapping (acc_state acc)).
    change (record_of (metadata_mapping (acc_state acc)) (emit evs1 (acc_state acc)))
      with (record_of (metadata_mapping (acc_state acc)) (acc_state acc)).
    destruct (embedded (acc_state acc) f); reflexivity.
  - change (embedded (emit evs1 (acc_state acc))) with (embedded (acc_state acc)).
    destruct (embedded (acc_state acc) f); simpl; unfold omap; lia.
  - change (failed_file (emit evs1 (acc_state acc))) with (failed_file (acc_state acc)).
    rewrite filter_cons.
    destruct (failed_file (acc_state acc) f) eqn:Hf.
    + rewrite decide_True by done. simpl. unfold filter. lia.
    + case_decide as H; [destruct H|]. unfold filter. lia.
Qed.

Lemma save_cache_spec st :
  ∃ evs,
    save_cache st
    = mk_state (face_database st) (metadata_mapping st) (database_loaded st)
        (if bool_decide (is_Some (dirs st !! Py.join BASE_DIR DATABASE_PATH))
         then <[Py.join BASE_DIR DB_PICKLE_FILE := pickle_dump (face_database st)]>
                (files st)
         else files st)
        (dirs st) (trace st ++ evs).
Proof.
  unfold save_cache, write_file. cbn [dirs log].
  case_bool_decide.
  - eexists [_; _]. unfold log, set_files; simpl. by rewrite <-(assoc_L (++)).
  - eexists [_; _]. unfold log; simpl. by rewrite <-(assoc_L (++)).
Qed.

(** What a first run of [load_database] leaves, when the before folder
    exists: the records of the embedded files in enumeration order, the
    mapping read from the metadata file, the flag set, and the cache written
    when the database folder exists. *)
Lemma load_database_built st listing :
  database_loaded st = false →
  dirs st !! FULL_BEFORE_FOLDER = Some listing →
  let m := default ∅ (read_metadata st) in
  let db := omap (λ f, record_of m st f <$> embedded st f) listing in
  ∃ evs,
    load_database st
    = mk_state db m true
        (if bool_decide (is_Some (dirs st !! Py.join BASE_DIR DATABASE_PATH))
         then <[Py.join BASE_DIR DB_PICKLE_FILE := pickle_dump db]> (files st)
         else files st)
        (dirs st) (trace st ++ evs)
    ∧ Log INFO (LoadingComplete (length db)
                  (length (filter (λ f, failed_file st f) listing))) ∈ evs.
Proof.
  intros Hloaded Hdir m db. unfold load_database. rewrite Hloaded.
  set (st1 := log INFO (LoadingDatabaseFrom FULL_BEFORE_FOLDER) _).
  assert (∃ evs0, st1 = emit evs0 (set_metadata_mapping m st)) as (evs0 & Hst1).
  { subst st1 m. destruct (read_metadata st) as [m|]; simpl.
    - eexists [_; _]. rewrite !log_emit, emit_emit. done.
    - eexists [_; _]. rewrite !log_emit. unfold emit, set_metadata_mapping; simpl.
      by rewrite <-(assoc_L (++)). }
  rewrite Hst1. cbn [dirs emit set_metadata_mapping]. rewrite Hdir.
  destruct (foldl_process_file listing
              (mk_acc [] 0 0 (emit evs0 (set_metadata_mapping m st)))) as (evs1 & ->).
  cbn [temp_database processed_files failed_files acc_state app].
  change (omap (λ f, record_of _ _ f <$> embedded _ f) listing) with db.
  change (failed_file (emit evs0 (set_metadata_mapping m st))) with (failed_file st).
  assert (length (omap (embedded (emit evs0 (set_metadata_mapping m st))) listing)
          = length db) as ->.
  { subst db. change (embedded (emit evs0 (set_metadata_mapping m st)))
      with (embedded st).
    clear. induction listing as [|f l IH]; simpl; [done|].
    unfold omap in IH. destruct (embedded st f); simpl; by rewrite ?IH. }
  match goal with |- ∃ evs, save_cache ?arg = _ ∧ _ => set (st2 := arg) end.
  assert (∃ evsA, st2 = mk_state db m true (files st) (dirs st) (trace st ++ evsA)
                  ∧ Log INFO (LoadingComplete (length db)
                       (length (filter (λ f, failed_file st f) listing))) ∈ evsA)
    as (evsA & -> & HevsA).
  { subst st2. case_bool_decide.
    - eexists (evs0 ++ evs1 ++ [_; _]). split.
      + unfold log, emit, set_database_loaded, set_face_database,
          set_metadata_mapping; simpl. by rewrite <-!(assoc_L (++)).
      + rewrite !elem_of_app. right. right. by repeat constructor.
    - eexists (evs0 ++ evs1 ++ [_]). split.
      + unfold log, emit, set_database_loaded, set_face_database,
          set_metadata_mapping; simpl. by rewrite <-!(assoc_L (++)).
      + rewrite !elem_of_app. right. right. by repeat constructor. }
  destruct (save_cache_spec (mk_state db m true (files st) (dirs st) (trace st ++ evsA)))
    as (evsB & ->).
  exists (evsA ++ evsB). cbn [face_database metadata_mapping database_loaded files
    dirs trace]. rewrite <-(assoc_L (++)). split; [done|].
  apply elem_of_app. by left.
Qed.

(** *** Paths of the records *)

Lemma join_before f :
  Py.join BEFORE_FOLDER_NAME f = if Py.startswith "/" f then f else "before/" +:+ f.
Proof. reflexivity. Qed.

Lemma join_before_inj f g :
  Py.join BEFORE_FOLDER_NAME f = Py.join BEFORE_FOLDER_NAME g → f = g.
Proof.
  rewrite !join_before.
  destruct f as [|c f], g as [|c' g]; simpl; try done.
  - destruct (Ascii.eqb c' "/") eqn:Hc; intros H; [|discriminate].
    injection H as <- <-. simpl in Hc. discriminate.
  - destruct (Ascii.eqb c "/") eqn:Hc; intros H; [|discriminate].
    injection H as -> ->. simpl in Hc. discriminate.
  - destruct (Ascii.eqb c "/") eqn:Hc, (Ascii.eqb c' "/") eqn:Hc'; intros H.
    + done.
    + injection H as -> ->. simpl in Hc. discriminate.
    + injection H as <- <-. simpl in Hc'. discriminate.
    + by injection H as -> ->.
Qed.

Lemma rfind_absent ch s : Py.contains ch s = false → Py.rfind ch s = -1.
Proof.
  induction s as [|c s IH]; simpl; [done|].
  intros [Hc Hs]%orb_false_elim. rewrite (IH Hs), Hc. done.
Qed.

Lemma rfind_cons ch c r :
  Py.rfind ch (String c r)
  = if 0 <=? Py.rfind ch r then Py.rfind ch r + 1
    else if Ascii.eqb c ch then 0 else -1.
Proof. reflexivity. Qed.

Lemma basename_join_before f :
  Py.contains "/" f = false → Py.basename (Py.join BEFORE_FOLDER_NAME f) = f.
Proof.
  intros Hf. rewrite join_before.
  assert (Py.startswith "/" f = false) as ->.
  { destruct f; simpl in *; [done|]. by apply orb_false_elim in Hf as [? _]. }
  unfold Py.basename.
  change ("before/" +:+ f)
    with (String "b" (String "e" (String "f" (String "o" (String "r"
            (String "e" (String "/" f))))))).
  rewrite !rfind_cons, (rfind_absent _ _ Hf). reflexivity.
Qed.

Lemma identifier_record_of m st f v :
  Py.contains "/" f = false →
  identifier (record_of m st f v) = (Py.splitext f).1.
Proof. intros Hf. unfold identifier. simpl. by rewrite basename_join_before. Qed.

(** *** The built index *)

(** C8: a first run of [load_database] over an existing before folder
    always completes and sets the flag; the index it leaves has, in
    enumeration order, the record of every allowed file that the lenient
    provider embedded, and no record of a file whose embedding failed, for
    whatever reason; the failed files are counted in the closing log line. *)
Theorem load_database_skips_failed_files st listing :
  database_loaded st = false →
  dirs st !! FULL_BEFORE_FOLDER = Some listing →
  let st' := load_database st in
  let m := default ∅ (read_metadata st) in
  database_loaded st' = true
  ∧ face_database st'
    = omap (λ f, record_of m st f <$> embedded st f) listing
  ∧ Log INFO (LoadingComplete (length (face_database st'))
                (length (filter (λ f, failed_file st f) listing))) ∈ trace st'
  ∧ (∀ f v, f ∈ listing → embedded st f = Some v →
       record_of m st f v ∈ face_database st')
  ∧ (∀ f e, f ∈ listing → failed_file st f → e ∈ face_database st' →
       before_path e ≠ Py.join BEFORE_FOLDER_NAME f).
Proof.
  intros Hloaded Hdir st' m.
  destruct (load_database_built st listing Hloaded Hdir) as (evs & Hst' & Hlog).
  fold m in Hst', Hlog. subst st'. rewrite Hst'.
  cbn [database_loaded face_database trace]. split_and!; [done|done|..].
  - apply elem_of_app. by right.
  - intros f v Hf Hv. apply list_elem_of_omap. exists f. by rewrite Hv.
  - intros f e Hf Hfailed (g & Hg & He)%list_elem_of_omap Hpath.
    destruct (embedded st g) as [v|] eqn:Hv; [|done].
    injection He as <-. simpl in Hpath. apply join_before_inj in Hpath as ->.
    unfold failed_file in Hfailed. rewrite Hv in Hfailed.
    by destruct (allowed_file f).
Qed.

(** C2, as the code has it: in the index a first run of [load_database]
    builds from a listing of distinct file names, no two records share a
    before path; the identifiers of the records are the stems of the
    embedded files, so no two records share an identifier exactly when no
    two embedded files share a stem; records that share an identifier get
    the same metadata entry. *)
Theorem built_index_identifiers st listing :
  database_loaded st = false →
  dirs st !! FULL_BEFORE_FOLDER = Some listing →
  NoDup listing →
  Forall (λ f, Py.contains "/" f = false) listing →
  let db := face_database (load_database st) in
  let stems := omap (λ f, (λ _, (Py.splitext f).1) <$> embedded st f) listing in
  NoDup (before_path <$> db)
  ∧ identifier <$> db = stems
  ∧ (NoDup (identifier <$> db) ↔ NoDup stems)
  ∧ (∀ e1 e2, e1 ∈ db → e2 ∈ db →
       identifier e1 = identifier e2 → metadata e1 = metadata e2).
Proof.
  intros Hloaded Hdir Hnodup Hslash db stems.
  destruct (load_database_built st listing Hloaded Hdir) as (evs & Hst' & _).
  subst db stems. rewrite Hst'. cbn [face_database].
  set (m := default ∅ (read_metadata st)).
  assert (identifier <$> omap (λ f, record_of m st f <$> embedded st f) listing
          = omap (λ f, (λ _, (Py.splitext f).1) <$> embedded st f) listing) as Hids.
  { clear Hdir Hnodup Hst'. induction Hslash as [|f l Hf _ IH]; [done|].
    cbn [omap list_omap]. destruct (embedded st f) as [v|]; simpl.
    - f_equal; [by apply identifier_record_of|exact IH].
    - exact IH. }
  assert (Forall (λ e, metadata e = m !! identifier e)
                 (omap (λ f, record_of m st f <$> embedded st f) listing)) as Hmeta.
  { clear Hdir Hnodup Hst' Hids. induction Hslash as [|f l Hf _ IH]; [constructor|].
    cbn [omap list_omap]. destruct (embedded st f) as [v|]; simpl; [|exact IH].
    constructor; [|exact IH]. by rewrite (identifier_record_of _ _ _ _ Hf). }
  split_and!; [|done|by rewrite Hids|].
  2:{ intros e1 e2 H1 H2 Heq. rewrite Forall_forall in Hmeta.
      by rewrite (Hmeta e1 H1), (Hmeta e2 H2), Heq. }
  clear Hdir Hslash Hst' Hids Hmeta.
  induction Hnodup as [|f l Hf _ IH]; [constructor|].
  cbn [omap list_omap]. destruct (embedded st f) as [v|]; simpl; [|exact IH].
  constructor; [|exact IH].
  intros (e & He & (g & Hg & Hr)%list_elem_of_omap)%list_elem_of_fmap.
  destruct (embedded st g); [|done]. injection Hr as <-. simpl in He.
  apply join_before_inj in He as ->. done.
Qed.

(** *** Requests before the index is ready *)

Lemma load_database_no_before_folder st :
  database_loaded st = false →
  dirs st !! FULL_BEFORE_FOLDER = None →
  face_database (load_database st) = face_database st
  ∧ database_loaded (load_database st) = true.
Proof.
  intros Hloaded Hdir. unfold load_database. rewrite Hloaded.
  destruct (read_metadata st); cbn [dirs log set_metadata_mapping];
    rewrite Hdir; done.
Qed.

(** C9: a request that comes before the flag is set, or while the index is
    empty (so also after a first build that found no before folder, or
    embedded none of its files), gets the "not ready" failure: it has no
    error type and another message than the two no-match failures; the
    only effect is the warning, and [cosine] is not called. *)
Theorem match_face_not_ready req st :
  database_loaded st = false
  ∨ face_database st = []
  ∨ (∃ st0, st = load_database st0
            ∧ database_loaded st0 = false ∧ face_database st0 = []
            ∧ (dirs st0 !! FULL_BEFORE_FOLDER = None
               ∨ ∃ listing, dirs st0 !! FULL_BEFORE_FOLDER = Some listing
                            ∧ ∀ f, f ∈ listing → embedded st0 f = None)) →
  match_face req st
  = (failure "Face database is not ready. Please wait or contact administrator." None,
     log WARNING MatchRequestNotReady st)
  ∧ cosine_calls (trace (match_face req st).2) = cosine_calls (trace st)
  ∧ error_type (match_face req st).1 = None
  ∧ message (match_face req st).1 ≠ "No suitable matches found in the database."
  ∧ message (match_face req st).1 ≠ "Could not compare with database entries.".
Proof.
  intros Hst.
  assert (negb (database_loaded st) || bool_decide (face_database st = []) = true)
    as Hguard.
  { destruct Hst as [->|[->|(st0 & -> & Hl0 & Hdb0 & Hcase)]]; [done| |].
    - rewrite bool_decide_eq_true_2 by done. apply orb_true_r.
    - destruct Hcase as [Hnone|(listing & Hdir & Hfail)].
      + destruct (load_database_no_before_folder st0 Hl0 Hnone) as [-> ->].
        rewrite Hdb0. done.
      + destruct (load_database_built st0 listing Hl0 Hdir) as (evs & -> & _).
        cbn [database_loaded face_database negb orb].
        apply bool_decide_eq_true_2.
        clear Hdir. induction listing as [|f l IH]; [done|].
        cbn [omap list_omap]. rewrite (Hfail f) by left. simpl.
        apply IH. intros g Hg. apply Hfail. by right. }
  unfold match_face. rewrite Hguard. cbn [fst snd]. split_and!; [done| |done..].
  simpl. rewrite cosine_calls_app. simpl. by rewrite (right_id_L [] (++)).
Qed.

(** *** The snapshot *)

Section Snapshot.

(** [pickle.load] gives back what [pickle.dump] was given. *)
Hypothesis pickle_round_trip : ∀ db, pickle_load (pickle_dump db) = Some db.

(** C5: after the cache write at the end of [load_database] (the database
    folder exists, so the write succeeds), a process that starts with the
    cache file as it was written loads from it a [face_database] equal to the
    one that was saved: the same records in the same order, with their
    paths, metadata and embeddings; it sets the flag and starts no rebuild. *)
Theorem snapshot_round_trip st st2 :
  is_Some (dirs st !! Py.join BASE_DIR DATABASE_PATH) →
  files st2 !! Py.join BASE_DIR DB_PICKLE_FILE
  = files (save_cache st) !! Py.join BASE_DIR DB_PICKLE_FILE →
  face_database (startup st2).1 = face_database st
  ∧ database_loaded (startup st2).1 = true
  ∧ (startup st2).2 = false.
Proof.
  intros Hdir Hfiles.
  destruct (save_cache_spec st) as (evs & Hsave).
  rewrite Hsave in Hfiles. cbn [files] in Hfiles.
  rewrite (bool_decide_eq_true_2 _ Hdir), lookup_insert_eq in Hfiles.
  unfold startup, path_exists. rewrite Hfiles.
  rewrite bool_decide_eq_true_2 by done.
  cbn [orb log files mbind option_bind]. rewrite Hfiles. cbn [mbind option_bind].
  rewrite pickle_round_trip.
  match goal with
  | |- context [match read_metadata ?x with _ => _ end] => destruct (read_metadata x)
  end; done.
Qed.

(** The same through the whole build: what a restart loads is what the
    build left in memory. *)
Lemma load_database_then_startup st listing st2 :
  database_loaded st = false →
  dirs st !! FULL_BEFORE_FOLDER = Some listing →
  is_Some (dirs st !! Py.join BASE_DIR DATABASE_PATH) →
  files st2 !! Py.join BASE_DIR DB_PICKLE_FILE
  = files (load_database st) !! Py.join BASE_DIR DB_PICKLE_FILE →
  face_database (startup st2).1 = face_database (load_database st)
  ∧ database_loaded (startup st2).1 = true.
Proof.
  intros Hloaded Hdir Hparent Hfiles.
  destruct (load_database_built st listing Hloaded Hdir) as (evs & Hst' & _).
  rewrite Hst' in Hfiles |- *. cbn [files face_database] in *.
  rewrite (bool_decide_eq_true_2 _ Hparent), lookup_insert_eq in Hfiles.
  revert Hfiles. generalize (omap (λ f, record_of (default ∅ (read_metadata st)) st f
                                          <$> embedded st f) listing).
  intros db Hfiles.
  unfold startup, path_exists. rewrite Hfiles.
  rewrite bool_decide_eq_true_2 by done.
  cbn [orb log files mbind option_bind]. rewrite Hfiles. cbn [mbind option_bind].
  rewrite pickle_round_trip.
  match goal with
  | |- context [match read_metadata ?x with _ => _ end] => destruct (read_metadata x)
  end; done.
Qed.

End Snapshot.

(** ** Further properties of the build *)

(** A first run that finds no before folder: only the metadata mapping and
    the flag change. *)
Lemma load_database_missing_folder st :
  database_loaded st = false →
  dirs st !! FULL_BEFORE_FOLDER = None →
  ∃ evs,
    load_database st
    = mk_state (face_database st) (default ∅ (read_metadata st)) true
               (files st) (dirs st) (trace st ++ evs)
    ∧ Log ERROR (BeforeFolderNotFound FULL_BEFORE_FOLDER) ∈ evs.
Proof.
  intros Hloaded Hdir. unfold load_database. rewrite Hloaded.
  destruct (read_metadata st) as [m|]; cbn [dirs log set_metadata_mapping];
    rewrite Hdir; eexists [_; _; _];
    (split; [unfold log, set_database_loaded, set_metadata_mapping; simpl;
             by rewrite <-!(assoc_L (++))|by repeat constructor]).
Qed.

(** X1: every run of [load_database] ends with the flag set, whether the
    before folder is there or not (its path being no regular file, on which
    [os.listdir] would raise), so a second run right after it does nothing
    but log: the build runs at most once. *)
Theorem load_database_runs_once st :
  files st !! FULL_BEFORE_FOLDER = None →
  database_loaded (load_database st) = true
  ∧ load_database (load_database st)
    = log INFO DatabaseAlreadyLoaded (load_database st).
Proof.
  intros _.
  assert (database_loaded (load_database st) = true) as Hflag.
  { destruct (database_loaded st) eqn:Hloaded.
    - unfold load_database. by rewrite Hloaded.
    - destruct (dirs st !! FULL_BEFORE_FOLDER) as [listing|] eqn:Hdir.
      + by destruct (load_database_built st listing Hloaded Hdir) as (evs & -> & _).
      + by destruct (load_database_missing_folder st Hloaded Hdir) as (evs & -> & _). }
  split; [exact Hflag|].
  unfold load_database at 1. by rewrite Hflag.
Qed.

(** X2: [load_database] creates and removes no directory, writes no file but
    the cache, and only adds to the log. *)
Theorem load_database_frame st :
  dirs (load_database st) = dirs st
  ∧ (∀ p, p ≠ Py.join BASE_DIR DB_PICKLE_FILE →
       files (load_database st) !! p = files st !! p)
  ∧ ∃ evs, trace (load_database st) = trace st ++ evs.
Proof.
  destruct (database_loaded st) eqn:Hloaded.
  { unfold load_database. rewrite Hloaded. split_and!; [done..|by eexists]. }
  destruct (dirs st !! FULL_BEFORE_FOLDER) as [listing|] eqn:Hdir.
  - destruct (load_database_built st listing Hloaded Hdir) as (evs & -> & _).
    cbn [dirs files trace]. split_and!; [done| |by eexists].
    intros p Hp. case_bool_decide; [|done]. by rewrite lookup_insert_ne.
  - destruct (load_database_missing_folder st Hloaded Hdir) as (evs & -> & _).
    split_and!; [done..|by eexists].
Qed.

(** X3: a first build counts every allowed file once: it is indexed or it is
    counted as failed, and the files of other types are neither. *)
Theorem load_database_accounts_for_every_file st listing :
  database_loaded st = false →
  dirs st !! FULL_BEFORE_FOLDER = Some listing →
  (length (face_database (load_database st))
   + length (filter (λ f, failed_file st f) listing))%nat
  = length (filter (λ f, allowed_file f) listing).
Proof.
  intros Hloaded Hdir.
  destruct (load_database_built st listing Hloaded Hdir) as (evs & -> & _).
  cbn [face_database]. clear Hdir.
  assert (∀ f, (length (option_list (embedded st f))
                + (if failed_file st f then 1 else 0)
                = if allowed_file f then 1 else 0)%nat) as Hone.
  { intros f. unfold failed_file, embedded. destruct (allowed_file f); [|done].
    by destruct (represent _ false) as [[|v rest]|e|e]. }
  induction listing as [|f l IH]; [done|].
  rewrite !filter_cons. cbn [omap list_omap]. specialize (Hone f).
  destruct (embedded st f), (failed_file st f), (allowed_file f);
    simpl in *; unfold omap, filter in *; lia.
Qed.

(** The metadata log line of a first run. *)
Definition metadata_log (st : State) : event float :=
  match read_metadata st with
  | Some m => Log INFO (LoadedMetadata (size m))
  | None => Log WARNING CouldNotLoadMetadata
  end.

Lemma load_database_trace st :
  database_loaded st = false →
  ∃ evs, trace (load_database st) = trace st ++ metadata_log st :: evs.
Proof.
  intros Hloaded. unfold load_database. rewrite Hloaded.
  set (st1 := log INFO (LoadingDatabaseFrom FULL_BEFORE_FOLDER) _).
  assert (∃ evs0, st1 = emit (metadata_log st :: evs0)
                          (set_metadata_mapping (default ∅ (read_metadata st)) st))
    as (evs0 & Hst1).
  { subst st1. unfold metadata_log. destruct (read_metadata st) as [m|]; simpl.
    - eexists [_]. rewrite !log_emit, emit_emit. done.
    - eexists [_]. rewrite !log_emit. unfold emit, set_metadata_mapping; simpl.
      by rewrite <-(assoc_L (++)). }
  rewrite Hst1. clear Hst1 st1.
  set (st1 := emit (metadata_log st :: evs0) _).
  change (dirs st1) with (dirs st).
  assert (trace st1 = trace st ++ metadata_log st :: evs0) as Htr1 by done.
  clearbody st1.
  assert (∀ tr, trace st1 `prefix_of` tr →
                ∃ evs, tr = trace st ++ metadata_log st :: evs) as Hprefix.
  { intros tr [k ->]. rewrite Htr1, <-(assoc_L (++)). simpl. by eexists. }
  apply Hprefix.
  destruct (dirs st !! FULL_BEFORE_FOLDER) as [listing|].
  - destruct (foldl_process_file listing (mk_acc [] 0 0 st1)) as (evs1 & ->).
    cbn [temp_database processed_files failed_files acc_state].
    match goal with |- _ `prefix_of` trace (save_cache ?arg) => set (st2 := arg) end.
    destruct (save_cache_spec st2) as (evsB & ->). cbn [trace].
    apply prefix_app_r. subst st2.
    case_bool_decide; cbn [trace log set_database_loaded set_face_database emit];
      repeat apply prefix_app_r; done.
  - cbn [trace log set_database_loaded]. by apply prefix_app_r.
Qed.

(** X4: when the metadata document cannot be read (no file, bad JSON, an
    item without ['case_id']), a first build still indexes every embedded
    file: the mapping is empty, no record has metadata, and the warning is
    logged. *)
Theorem load_database_without_metadata st listing :
  database_loaded st = false →
  dirs st !! FULL_BEFORE_FOLDER = Some listing →
  read_metadata st = None →
  metadata_mapping (load_database st) = ∅
  ∧ Forall (λ e, metadata e = None) (face_database (load_database st))
  ∧ before_path <$> face_database (load_database st)
    = omap (λ f, (λ _, Py.join BEFORE_FOLDER_NAME f) <$> embedded st f) listing
  ∧ Log WARNING CouldNotLoadMetadata ∈ trace (load_database st).
Proof.
  intros Hloaded Hdir Hmeta.
  destruct (load_database_trace st Hloaded) as (evs' & Htrace).
  destruct (load_database_built st listing Hloaded Hdir) as (evs & Hst' & _).
  rewrite Htrace. rewrite Hst'. cbn [metadata_mapping face_database].
  unfold metadata_log. rewrite Hmeta. simpl. split_and!; [done| | |].
  - clear. induction listing as [|f l IH]; [done|].
    cbn [omap list_omap]. destruct (embedded st f); [|exact IH].
    constructor; [|exact IH]. simpl. apply lookup_empty.
  - clear. induction listing as [|f l IH]; [done|].
    cbn [omap list_omap]. destruct (embedded st f); simpl; [|exact IH].
    f_equal. exact IH.
  - apply elem_of_app. right. by left.
Qed.

(** ** The metadata mapping *)

(** The items of a metadata document filed under the case id [k]. *)
Definition items_of (k : string) (metadata_list : list meta_item) : list meta_item :=
  filter (λ item, item !! "case_id" = Some k) metadata_list.

Lemma case_id_mapping_lookup (metadata_list : list meta_item) :
  ∀ acc m,
    case_id_mapping metadata_list acc = Some m →
    Forall (λ item, is_Some (item !! "case_id")) metadata_list
    ∧ ∀ k, m !! k = match last (items_of k metadata_list) with
                    | Some item => Some item
                    | None => acc !! k
                    end.
Proof.
  induction metadata_list as [|item l IH]; intros acc m; simpl.
  { intros [= <-]. split; [constructor|done]. }
  destruct (item !! "case_id") as [k0|] eqn:Hk0; [|done].
  intros [Hall Hlookup]%IH. split; [constructor; [by rewrite Hk0|done]|].
  intros k. rewrite Hlookup. unfold items_of. rewrite filter_cons.
  destruct (decide (item !! "case_id" = Some k)) as [Hk|Hk].
  - rewrite last_cons. destruct (last _); [done|].
    rewrite Hk0 in Hk. injection Hk as ->. apply lookup_insert_eq.
  - destruct (last _); [done|]. apply lookup_insert_ne. congruence.
Qed.

Lemma read_metadata_case_id st m k item :
  read_metadata st = Some m → m !! k = Some item → item !! "case_id" = Some k.
Proof.
  unfold read_metadata. intros Hread Hk.
  destruct (files st !! _) as [data|]; [|done]. simpl in *.
  destruct (json_load data) as [l|]; [|done]. simpl in *.
  destruct (case_id_mapping_lookup l ∅ m Hread) as [_ Hlookup].
  rewrite Hlookup, lookup_empty in Hk.
  destruct (last (items_of k l)) as [item'|] eqn:Hlast; [|done].
  injection Hk as ->. apply last_Some_elem_of in Hlast.
  by apply list_elem_of_filter in Hlast as [? _].
Qed.

(** X6: when the metadata document is read, every item of it has a case id,
    a case id is mapped to the last item that carries it (earlier ones are
    overwritten), and an id that no item carries is not mapped. *)
Theorem read_metadata_last_item_wins st m :
  read_metadata st = Some m →
  ∃ metadata_list,
    files st !! Py.join (Py.join BASE_DIR DATABASE_PATH) "scraped_data.json"
      ≫= json_load = Some metadata_list
    ∧ Forall (λ item, is_Some (item !! "case_id")) metadata_list
    ∧ ∀ k, m !! k = last (items_of k metadata_list).
Proof.
  unfold read_metadata. intros Hread.
  destruct (files st !! _) as [data|]; [|done]. simpl in *.
  destruct (json_load data) as [l|]; [|done]. simpl in *.
  exists l. split; [done|].
  destruct (case_id_mapping_lookup l ∅ m Hread) as [Hall Hlookup].
  split; [done|]. intros k. rewrite Hlookup, lookup_empty.
  by destruct (last _).
Qed.


(** X7: the metadata of a built record is the entry of the mapping under the
    record's identifier, so it carries that identifier as its case id; a
    record whose identifier is no item's case id has no metadata. *)
Theorem built_record_metadata st listing :
  database_loaded st = false →
  dirs st !! FULL_BEFORE_FOLDER = Some listing →
  Forall (λ f, Py.contains "/" f = false) listing →
  Forall (λ e, metadata e = metadata_mapping (load_database st) !! identifier e
               ∧ ∀ item, metadata e = Some item →
                   item !! "case_id" = Some (identifier e))
         (face_database (load_database st)).
Proof.
  intros Hloaded Hdir Hslash.
  destruct (load_database_built st listing Hloaded Hdir) as (evs & -> & _).
  cbn [face_database metadata_mapping]. clear Hdir.
  induction Hslash as [|f l Hf _ IH]; [constructor|].
  cbn [omap list_omap]. destruct (embedded st f) as [v|]; simpl; [|exact IH].
  constructor; [|exact IH].
  rewrite (identifier_record_of _ _ _ _ Hf). cbn [metadata record_of].
  split; [done|]. intros item Hitem.
  destruct (read_metadata st) as [m|] eqn:Hread; simpl in Hitem.
  - by eapply read_metadata_case_id.
  - by rewrite lookup_empty in Hitem.
Qed.

(** ** Further properties of the handler *)

(** [st'] comes from [st] by effects that leave the globals and the
    directories alone, only add to the log and touch no file but [p]. *)
Definition touches_only (p : string) (st st' : State) : Prop :=
  face_database st' = face_database st
  ∧ metadata_mapping st' = metadata_mapping st
  ∧ database_loaded st' = database_loaded st
  ∧ dirs st' = dirs st
  ∧ trace st `prefix_of` trace st'
  ∧ ∀ p', p' ≠ p → files st' !! p' = files st !! p'.

Lemma touches_only_refl p st : touches_only p st st.
Proof. by repeat split. Qed.

Lemma touches_only_trans p st1 st2 st3 :
  touches_only p st1 st2 → touches_only p st2 st3 → touches_only p st1 st3.
Proof.
  intros (Hdb & Hm & Hl & Hd & Ht & Hf) (Hdb' & Hm' & Hl' & Hd' & Ht' & Hf').
  split_and!; [congruence..|by etrans|].
  intros p' Hp. rewrite Hf', Hf; done.
Qed.

Lemma touches_only_emit p evs st : touches_only p st (emit evs st).
Proof. split_and!; [done..|by apply prefix_app_r|done]. Qed.

Lemma touches_only_write p data st :
  touches_only p st (set_files (<[p := data]> (files st)) st).
Proof.
  split_and!; [done..|]. intros p' Hp. simpl. by rewrite lookup_insert_ne.
Qed.

Lemma touches_only_remove p st : touches_only p st (remove_if_exists p st).
Proof.
  unfold remove_if_exists. destruct (path_exists p st); [|apply touches_only_refl].
  split_and!; [done..|]. intros p' Hp. simpl. by rewrite lookup_delete_ne.
Qed.

Lemma match_body_touches_only file fn p st :
  touches_only p st (match_body file fn p st).2.
Proof.
  unfold match_body, write_file. case_bool_decide; [|apply touches_only_refl].
  set (st1 := log INFO (FileUploaded p) _).
  assert (touches_only p st st1) as H1.
  { subst st1. rewrite log_emit. eapply touches_only_trans;
      [apply touches_only_write|apply touches_only_emit]. }
  clearbody st1. eapply touches_only_trans; [exact H1|]. clear H1.
  assert (∀ lv m, touches_only p st1 (remove_if_exists p (log lv m st1))) as Hfail.
  { intros lv m. rewrite log_emit. eapply touches_only_trans;
      [apply touches_only_emit|apply touches_only_remove]. }
  destruct (represent _ true) as [[|q rest]|e|e]; cbn [snd]; [apply Hfail| |apply Hfail..].
  destruct (scan q (face_database st1) 0 ([], [])) as [distances evs].
  case_bool_decide.
  { cbn [snd]. rewrite log_emit, emit_emit. eapply touches_only_trans;
      [apply touches_only_emit|apply touches_only_remove]. }
  set (st2 := log INFO _ (emit evs st1)).
  assert (touches_only p st1 st2) as H2.
  { subst st2. rewrite log_emit, emit_emit. apply touches_only_emit. }
  clearbody st2. eapply touches_only_trans; [exact H2|]. clear H2.
  destruct (prepare_matches_spec
              (take (3 `min` length (sort_by_distance distances))
                    (sort_by_distance distances)) 0 [] st2)
    as (post & Hst & _ & _).
  destruct (prepare_matches _ 0 [] st2) as [[ms|] st3]; cbn [snd] in Hst; subst st3;
    [|cbn [snd]; apply touches_only_emit].
  destruct (url_for_uploaded_file fn); [|cbn [snd]; apply touches_only_emit].
  case_bool_decide; cbn [snd]; rewrite log_emit, emit_emit.
  - apply touches_only_emit.
  - eapply touches_only_trans; [apply touches_only_emit|apply touches_only_remove].
Qed.

Lemma match_face_touches_only req st :
  (∀ q, touches_only q st (match_face req st).2)
  ∨ ∃ file, req = Some file
      ∧ touches_only (uploaded_filepath file) st (match_face req st).2.
Proof.
  unfold match_face.
  destruct (negb _ || _); [left; intros q; apply (touches_only_emit q [_])|].
  destruct req as [file|]; [|left; intros q; apply touches_only_refl].
  case_bool_decide; [left; intros q; apply touches_only_refl|].
  destruct (allowed_file _); [|left; intros q; apply touches_only_refl].
  right. exists file. split; [done|].
  pose proof (match_body_touches_only file (secure_filename (filename file))
                (uploaded_filepath file) st) as Hbody.
  fold (uploaded_filepath file).
  destruct (match_body _ _ _ st) as [[resp|] st']; cbn [snd] in *; [done|].
  eapply touches_only_trans; [exact Hbody|]. rewrite log_emit.
  eapply touches_only_trans; [apply touches_only_emit|apply touches_only_remove].
Qed.

Lemma string_cons_ne c (p : string) : String c p ≠ p.
Proof. induction p as [|c' p IH]; [done|]. intros [= -> Heq]. done. Qed.

(** X8: whatever the request and its outcome, [match_face] leaves the
    gallery index, the metadata mapping, the loaded flag and the directories
    as they were, only adds to the log, and changes no file other than the
    one at the path of the upload. *)
Theorem match_face_touches_only_the_upload req st :
  face_database (match_face req st).2 = face_database st
  ∧ metadata_mapping (match_face req st).2 = metadata_mapping st
  ∧ database_loaded (match_face req st).2 = database_loaded st
  ∧ dirs (match_face req st).2 = dirs st
  ∧ trace st `prefix_of` trace (match_face req st).2
  ∧ ∀ p, (∀ file, req = Some file → p ≠ uploaded_filepath file) →
      files (match_face req st).2 !! p = files st !! p.
Proof.
  destruct (match_face_touches_only req st) as [H|(file & -> & H)].
  - destruct (H "") as (Hdb & Hm & Hl & Hd & Ht & _). split_and!; [done..|].
    intros p _. destruct (H (String "x" p)) as (_ & _ & _ & _ & _ & Hf).
    apply Hf. intros Heq. by apply (string_cons_ne "x" p).
  - destruct H as (Hdb & Hm & Hl & Hd & Ht & Hf). split_and!; [done..|].
    intros p Hp. apply Hf. by apply Hp.
Qed.

(** X9: a request without a file, with an unnamed file or with a file whose
    extension is not allowed is turned down before anything happens: the
    state is untouched (nothing is saved, nothing is logged), and the
    message says which of the three checks failed. *)
Theorem match_face_rejects_upload req st :
  database_loaded st = true →
  face_database st ≠ [] →
  match req with
  | None => True
  | Some file => filename file = "" ∨ allowed_file (filename file) = false
  end →
  match_face req st
  = (failure match req with
             | None => "No file part in the request."
             | Some file =>
                 if bool_decide (filename file = "") then "No selected file."
                 else "File type not allowed."
             end None,
     st).
Proof.
  intros Hloaded Hdb Hreq. unfold match_face.
  rewrite Hloaded, (bool_decide_eq_false_2 _ Hdb). simpl.
  destruct req as [file|]; [|done].
  case_bool_decide; [done|].
  destruct Hreq as [? | ->]; done.
Qed.

(** X10: when the upload cannot be saved (the upload folder is missing), the
    handler answers with the generic internal error; the provider's result
    plays no part, [cosine] is not called, the one log line is the error,
    and no file is left at the upload's path. *)
Theorem match_face_save_fails file st :
  database_loaded st = true →
  face_database st ≠ [] →
  filename file ≠ "" →
  allowed_file (filename file) = true →
  dirs st !! FULL_UPLOAD_FOLDER = None →
  (match_face (Some file) st).1 = failure "An internal server error occurred." None
  ∧ trace (match_face (Some file) st).2
    = trace st ++ [Log ERROR (ErrorDuringMatching (secure_filename (filename file)))]
  ∧ files (match_face (Some file) st).2 !! uploaded_filepath file = None.
Proof.
  intros Hloaded Hdb Hname Hallowed Hdir. unfold match_face.
  rewrite Hloaded, Hallowed, (bool_decide_eq_false_2 _ Hdb),
    (bool_decide_eq_false_2 _ Hname). simpl.
  unfold match_body, write_file.
  rewrite Hdir, bool_decide_eq_false_2 by (by intros [? ?]). cbn [fst snd].
  fold (uploaded_filepath file).
  destruct (remove_if_exists_frame (uploaded_filepath file)
              (log ERROR (ErrorDuringMatching (secure_filename (filename file))) st))
    as (_ & _ & _ & ->).
  split_and!; [done..|]. apply files_remove_if_exists.
Qed.

(** X11: when the strict call of the provider fails with anything but a
    [ValueError], the response is a fixed message that does not repeat the
    error's text; the error is logged, [cosine] is not called and the upload
    is removed. *)
Theorem match_face_unexpected_provider_error file st e :
  accepted file st →
  represent (Some (content file)) true = RaiseException e →
  (match_face (Some file) st).1
  = failure "An unexpected error occurred during image processing." None
  ∧ trace (match_face (Some file) st).2
    = trace st ++ [Log INFO (FileUploaded (uploaded_filepath file));
                   Log ERROR (UnexpectedErrorProcessingUploaded
                                (secure_filename (filename file)) e)]
  ∧ files (match_face (Some file) st).2 !! uploaded_filepath file = None.
Proof.
  intros Hacc Hr. rewrite (match_face_accepted _ _ Hacc).
  destruct Hacc as (_ & _ & _ & _ & Hdir).
  unfold match_body, write_file. rewrite (bool_decide_eq_true_2 _ Hdir).
  fold (saved file st). rewrite saved_lookup, Hr. cbn [fst snd].
  destruct (remove_if_exists_frame (uploaded_filepath file)
              (log ERROR (UnexpectedErrorProcessingUploaded
                            (secure_filename (filename file)) e) (saved file st)))
    as (_ & _ & _ & ->).
  split_and!; [done| |apply files_remove_if_exists].
  simpl. by rewrite <-(assoc_L (++)).
Qed.

(** *** What a match shows *)

(** The match [m] is the rendering of the scored record [d]: its similarity
    is [1 - distance], its metadata is the record's, its before URL is the
    one [url_for] gives for the base name of the record's before path, and
    its after URL is the one for the after path, or nothing when the record
    has no after image. *)
Definition rendered (st : State) (m : match_data float) (d : dist_rec float) : Prop :=
  ∃ e, face_database st !! index d = Some e
    ∧ similarity m = one_minus (distance d)
    ∧ match_metadata m = metadata e
    ∧ url_for_database_image BEFORE_FOLDER_NAME
        (if bool_decide (before_path e = "") then "invalid"
         else Py.basename (before_path e))
      = Some (match_before_url m)
    ∧ match after_path e with
      | None => match_after_url m = None
      | Some p =>
          if bool_decide (p = "") || bool_decide (Py.basename p = "")
          then match_after_url m = None
          else is_Some (match_after_url m)
               ∧ match_after_url m
                 = url_for_database_image AFTER_FOLDER_NAME (Py.basename p)
      end.

Lemma prepare_matches_rendered (top : list (dist_rec float)) :
  ∀ i acc st ms,
    (prepare_matches top i acc st).1 = Some ms →
    ∃ new, ms = acc ++ new ∧ Forall2 (rendered st) new top.
Proof.
  induction top as [|d top IH]; intros i acc st ms; simpl.
  { intros [= <-]. exists []. by rewrite (right_id_L [] (++)). }
  destruct (face_database st !! index d) as [e|] eqn:He; [|done].
  destruct (url_for_database_image BEFORE_FOLDER_NAME _) as [bu|] eqn:Hbu; [|done].
  match goal with
  | |- context [match ?x with Some _ => _ | None => (None, _) end] =>
      destruct x as [au|] eqn:Hau
  end; [|done].
  intros (new & -> & Hnew)%IH.
  exists (mk_match (one_minus (distance d)) bu au (metadata e) :: new).
  split; [by rewrite <-(assoc_L (++))|].
  constructor; [|exact Hnew].
  exists e. split_and!; [done..|].
  simpl. destruct (after_path e) as [p|]; [|by injection Hau as <-].
  case_bool_decide; simpl; [by injection Hau as <-|].
  case_bool_decide; simpl; [by injection Hau as <-|].
  destruct (url_for_database_image AFTER_FOLDER_NAME _) as [u|]; [|done].
  injection Hau as <-. by split; [eexists|].
Qed.

Lemma match_face_matches_prepared file st q rest ms :
  accepted file st →
  represent (Some (content file)) true = Objs (q :: rest) →
  matches (match_face (Some file) st).1 = Some ms →
  ∃ st1,
    face_database st1 = face_database st
    ∧ (prepare_matches
         (take 3 (sort_by_distance (scan q (face_database st) 0 ([], [])).1))
         0 [] st1).1 = Some ms.
Proof.
  intros Hacc Hr. rewrite (match_face_accepted _ _ Hacc).
  destruct Hacc as (_ & _ & _ & _ & Hdir).
  unfold match_body, write_file. rewrite (bool_decide_eq_true_2 _ Hdir).
  fold (saved file st). rewrite saved_lookup, Hr.
  change (face_database (saved file st)) with (face_database st).
  destruct (scan q (face_database st) 0 ([], [])) as [distances evs].
  cbn [fst snd]. lazy beta iota zeta.
  case_bool_decide; [done|].
  rewrite take_min_length.
  set (st1 := log INFO _ (emit evs (saved file st))).
  destruct (prepare_matches _ 0 [] st1) as [[ms'|] st2] eqn:Hprep; [|done].
  destruct (url_for_uploaded_file _); [|done].
  case_bool_decide; [|done]. cbn [fst matches]. intros [= ->].
  exists st1. split; [done|]. by rewrite Hprep.
Qed.

(** X12: every match of a response is the rendering of one of the scored
    records: the record's metadata, the URL of its before image, and the URL
    of its after image, which is absent (and no error) when the record has
    none.  Where the distances are floats that [<] orders, the records
    rendered are, in order, the first three of the sorted list. *)
Theorem match_face_renders_records file st q rest ms :
  accepted file st →
  represent (Some (content file)) true = Objs (q :: rest) →
  matches (match_face (Some file) st).1 = Some ms →
  let distances := (scan q (face_database st) 0 ([], [])).1 in
  ∃ top,
    Forall2 (rendered st) ms top
    ∧ (∀ d, d ∈ top → d ∈ distances)
    ∧ (sortable distances → top = take 3 (sort_by_distance distances)).
Proof.
  intros Hacc Hr Hms distances.
  destruct (match_face_matches_prepared file st q rest ms Hacc Hr Hms)
    as (st1 & Hdb & Hprep).
  destruct (prepare_matches_rendered _ _ _ _ _ Hprep) as (new & -> & Hnew).
  exists (take 3 (sort_by_distance distances)). split_and!; [| |done].
  - simpl. eapply Forall2_impl; [exact Hnew|].
    intros m d (e & He & ?). exists e. by rewrite <-Hdb.
  - intros d Hin. apply (subseteq_take 3) in Hin.
    by rewrite sort_by_distance_perm in Hin.
Qed.

Lemma StronglySorted_lt_NoDup (l : list nat) : StronglySorted lt l → NoDup l.
Proof.
  induction 1 as [|x l _ IH Hx]; constructor; [|done].
  intros Hin. rewrite Forall_forall in Hx. specialize (Hx x Hin). lia.
Qed.

(** X13: the matches of a response stand for distinct records of the
    gallery, each one with an embedding of the query's shape, and the
    distance each one is presented with is what [cosine] returned for the
    query and that record's embedding.  Where the distances are floats that
    [<] orders, these records are the first three of the sorted list. *)
Theorem match_face_matches_distinct_records file st q rest ms :
  accepted file st →
  represent (Some (content file)) true = Objs (q :: rest) →
  matches (match_face (Some file) st).1 = Some ms →
  let distances := (scan q (face_database st) 0 ([], [])).1 in
  ∃ top,
    Forall2 (presents st) ms top
    ∧ NoDup (index <$> top)
    ∧ Forall (λ d, ∃ e v, face_database st !! index d = Some e
                          ∧ embedding e = Some v ∧ length v = length q
                          ∧ cosine q v = Some (distance d)) top
    ∧ (sortable distances → top = take 3 (sort_by_distance distances)).
Proof.
  intros Hacc Hr Hms distances.
  destruct (match_face_scanned file st q rest Hacc Hr)
    as (post & resp & fs & Hresp & _ & Hcases).
  rewrite Hresp in Hms. cbn [fst] in Hms.
  destruct Hcases as [(_ & -> & _)|[(_ & -> & _)|(Hd & _ & url & ms' & -> & Hpres)]];
    [done..|].
  injection Hms as ->. rewrite take_min_length in Hpres.
  exists (take 3 (sort_by_distance distances)).
  split; [exact Hpres|].
  destruct (scan_spec q (face_database st) 0 [] [])
    as (new & new_evs & Hscan & _ & _ & Hnew & _ & Hsorted & _).
  subst distances. rewrite Hscan. cbn [fst app]. split_and!; [| |done].
  - eapply sublist_NoDup; [|apply fmap_sublist, sublist_take].
    rewrite sort_by_distance_perm. by apply StronglySorted_lt_NoDup.
  - apply Forall_take. rewrite sort_by_distance_perm.
    apply Forall_forall. intros d Hin.
    destruct (Hnew d Hin) as (j & e & v & -> & Hj & Hv & Hlen & Hcos).
    by exists e, v.
Qed.

(** *** The matches are the nearest records *)

Section Nearest.

(** As for the ranking: [<] is a strict weak order on the ordered floats. *)
Variable ordered : float → Prop.
Hypothesis flt_asym :
  ∀ x y, ordered x → ordered y → flt x y = true → flt y x = false.
Hypothesis flt_negtrans :
  ∀ x y z, ordered x → ordered y → ordered z →
    flt x z = true → flt x y = true ∨ flt y z = true.

(** X14: when the computed distances are ordered floats, no record that was
    compared but is not among the ranked three is nearer to the query than
    one of the three, and the first of them is nearest of all. *)
Theorem top3_are_nearest (q : list float) (db : list Entry) :
  let distances := (scan q db 0 ([], [])).1 in
  let top := take 3 (sort_by_distance distances) in
  Forall (λ d, ordered (distance d)) distances →
  (∀ t d, t ∈ top → d ∈ distances → d ∉ top →
     flt (distance d) (distance t) = false)
  ∧ (∀ t d, head top = Some t → d ∈ distances →
       flt (distance d) (distance t) = false).
Proof.
  intros distances top Hordered.
  assert (StronglySorted ranked_before (sort_by_distance distances)) as Hsorted.
  { apply (sort_by_distance_sorted ordered flt_asym flt_negtrans); [done|].
    destruct (scan_spec q db 0 [] []) as (new & new_evs & Hscan & _ & _ & _ & _ & Hs & _).
    unfold distances. by rewrite Hscan. }
  split.
  - intros t d Ht Hd Hnot.
    rewrite <-(take_drop 3 (sort_by_distance distances)) in Hsorted.
    assert (d ∈ drop 3 (sort_by_distance distances)) as Hdrop.
    { rewrite <-sort_by_distance_perm in Hd.
      rewrite <-(take_drop 3 (sort_by_distance distances)) in Hd.
      apply elem_of_app in Hd as [Hd|Hd]; [by destruct Hnot|done]. }
    by destruct (StronglySorted_app_1_elem_of _ _ _ _ _ Hsorted Ht Hdrop).
  - intros t d Ht Hd. subst top.
    rewrite <-sort_by_distance_perm in Hd.
    destruct (sort_by_distance distances) as [|t' l] eqn:Hl; [done|].
    injection Ht as ->.
    apply StronglySorted_cons in Hsorted as [Hall _].
    apply elem_of_cons in Hd as [->|Hd].
    + destruct (flt (distance t) (distance t)) eqn:Hlt; [|done].
      rewrite <-Hlt. apply flt_asym; [..|done].
      all: rewrite Forall_forall in Hordered; apply Hordered;
        rewrite <-sort_by_distance_perm, Hl; by left.
    + rewrite Forall_forall in Hall. by destruct (Hall d Hd).
Qed.

End Nearest.

(** ** Further properties of the start-up *)

(** X15: from the cache load on, a fresh process either loads the index from
    a readable cache, sets the flag and starts no build, or (no cache file,
    or one that [pickle] cannot load) keeps the flag clear, leaves the index
    as it is and starts the background build: the build is started exactly
    when the index was not loaded.  This part of the start-up writes and
    removes nothing. *)
Theorem startup_loads_or_builds st :
  database_loaded st = false →
  match files st !! Py.join BASE_DIR DB_PICKLE_FILE ≫= pickle_load with
  | Some db =>
      face_database (startup st).1 = db
      ∧ database_loaded (startup st).1 = true
      ∧ metadata_mapping (startup st).1 = default ∅ (read_metadata st)
      ∧ (startup st).2 = false
  | None =>
      face_database (startup st).1 = face_database st
      ∧ database_loaded (startup st).1 = false
      ∧ metadata_mapping (startup st).1 = ∅
      ∧ (startup st).2 = true
  end
  ∧ (startup st).2 = negb (database_loaded (startup st).1)
  ∧ files (startup st).1 = files st
  ∧ dirs (startup st).1 = dirs st.
Proof.
  intros Hloaded. unfold startup.
  destruct (path_exists _ st) eqn:Hexists.
  - cbn [files log].
    destruct (files st !! _ ≫= pickle_load) as [db|] eqn:Hcache.
    + match goal with
      | |- context [match read_metadata ?x with _ => _ end] =>
          change (read_metadata x) with (read_metadata st)
      end.
      destruct (read_metadata st); done.
    + done.
  - unfold path_exists in Hexists. apply orb_false_elim in Hexists as [Hfile _].
    apply bool_decide_eq_false in Hfile.
    apply eq_None_not_Some in Hfile. rewrite Hfile. simpl. by rewrite Hloaded.
Qed.

Section EmptySnapshot.

Hypothesis pickle_round_trip : ∀ db, pickle_load (pickle_dump db) = Some db.

(** X16: a first build that embeds no file still writes its (empty) index to
    the cache.  A process that later starts with that cache file loads the
    empty index, sets the flag and starts no build; from then on every
    request is answered "not ready", and a call of [load_database] does not
    rebuild. *)
Theorem empty_snapshot_is_never_rebuilt st listing st2 :
  database_loaded st = false →
  dirs st !! FULL_BEFORE_FOLDER = Some listing →
  (∀ f, f ∈ listing → embedded st f = None) →
  is_Some (dirs st !! Py.join BASE_DIR DATABASE_PATH) →
  files st2 !! Py.join BASE_DIR DB_PICKLE_FILE
  = files (load_database st) !! Py.join BASE_DIR DB_PICKLE_FILE →
  face_database (startup st2).1 = []
  ∧ database_loaded (startup st2).1 = true
  ∧ (startup st2).2 = false
  ∧ (∀ req, (match_face req (startup st2).1).1
            = failure "Face database is not ready. Please wait or contact administrator."
                      None)
  ∧ face_database (load_database (startup st2).1) = [].
Proof.
  intros Hloaded Hdir Hnone Hparent Hfiles.
  destruct (load_database_then_startup pickle_round_trip st listing st2
              Hloaded Hdir Hparent Hfiles) as [Hdb Hflag].
  assert (face_database (load_database st) = []) as Hempty.
  { destruct (load_database_built st listing Hloaded Hdir) as (evs & -> & _).
    cbn [face_database]. clear Hdir Hfiles Hdb.
    induction listing as [|f l IH]; [done|].
    cbn [omap list_omap]. rewrite (Hnone f) by left. simpl.
    apply IH. intros g Hg. apply Hnone. by right. }
  rewrite Hempty in Hdb.
  assert ((startup st2).2 = false) as Hstart.
  { unfold startup, path_exists.
    destruct (load_database_built st listing Hloaded Hdir) as (evs & Hst' & _).
    rewrite Hst' in Hfiles. cbn [files] in Hfiles.
    rewrite (bool_decide_eq_true_2 _ Hparent), lookup_insert_eq in Hfiles.
    rewrite Hfiles. rewrite bool_decide_eq_true_2 by done.
    cbn [orb log files mbind option_bind]. rewrite Hfiles. cbn [mbind option_bind].
    rewrite pickle_round_trip.
    match goal with
    | |- context [match read_metadata ?x with _ => _ end] => destruct (read_metadata x)
    end; done. }
  split_and!; [done..| |].
  - intros req. unfold match_face. rewrite Hflag, Hdb. done.
  - unfold load_database. by rewrite Hflag.
Qed.

End EmptySnapshot.

(** ** File names and paths *)

Lemma contains_split_last ch s :
  Py.contains ch s = true →
  ∃ a b, s = a +:+ String ch b ∧ Py.contains ch b = false.
Proof.
  induction s as [|c s IH]; simpl; [done|].
  destruct (Py.contains ch s) eqn:Hs.
  - intros _. destruct (IH eq_refl) as (a & b & -> & Hb). by exists (String c a), b.
  - rewrite orb_false_r. intros ->%Ascii.eqb_eq. by exists "", s.
Qed.

Lemma contains_app_sep ch a b : Py.contains ch (a +:+ String ch b) = true.
Proof.
  induction a as [|c a IH]; simpl; [by rewrite Ascii.eqb_refl|].
  by rewrite IH, orb_true_r.
Qed.

Lemma rfind_app_sep ch a b :
  Py.contains ch b = false →
  Py.rfind ch (a +:+ String ch b) = Z.of_nat (String.length a).
Proof.
  intros Hb. induction a as [|c a IH].
  - simpl. rewrite (rfind_absent _ _ Hb), Ascii.eqb_refl. done.
  - change (String c a +:+ String ch b) with (String c (a +:+ String ch b)).
    rewrite rfind_cons, IH.
    destruct (Z.leb_spec 0 (Z.of_nat (String.length a))); [|lia].
    simpl String.length. lia.
Qed.

Lemma drop_app_sep ch a b : Py.drop (S (String.length a)) (a +:+ String ch b) = b.
Proof. induction a as [|c a IH]; simpl; [by destruct b|done]. Qed.

Lemma slice_after_last ch a b :
  Py.contains ch b = false →
  Py.slice_from (Py.rfind ch (a +:+ String ch b) + 1) (a +:+ String ch b) = b.
Proof.
  intros Hb. rewrite (rfind_app_sep _ _ _ Hb). unfold Py.slice_from.
  replace (Z.to_nat (Z.of_nat (String.length a) + 1)) with (S (String.length a)) by lia.
  apply drop_app_sep.
Qed.

(** X17: a file name is allowed exactly when it reads [name.ext], where
    [ext] has no dot and is, letter case aside, one of png, jpg, jpeg and
    webp; only the text after the last dot counts. *)
Theorem allowed_file_iff filename :
  allowed_file filename = true ↔
  ∃ name ext,
    filename = name +:+ "." +:+ ext
    ∧ Py.contains "." ext = false
    ∧ Py.lower ext ∈ ALLOWED_EXTENSIONS.
Proof.
  unfold allowed_file. split.
  - intros [Hdot Hext%bool_decide_eq_true]%andb_prop.
    destruct (contains_split_last _ _ Hdot) as (name & ext & -> & Hnone).
    exists name, ext. split_and!; [done..|].
    by rewrite (slice_after_last _ _ _ Hnone) in Hext.
  - intros (name & ext & -> & Hnone & Hext).
    change (name +:+ "." +:+ ext) with (name +:+ String "." ext).
    rewrite contains_app_sep, (slice_after_last _ _ _ Hnone). simpl.
    by apply bool_decide_eq_true.
Qed.

Lemma append_sep_assoc a c f : (a +:+ String c "") +:+ f = a +:+ String c f.
Proof.
  induction a as [|c' a IH]; [done|].
  change (String c' ((a +:+ String c "") +:+ f) = String c' (a +:+ String c f)).
  by f_equal.
Qed.

Lemma endswith_split ch a :
  Py.endswith ch a = true → ∃ a', a = a' +:+ String ch "".
Proof.
  induction a as [|c a IH]; [done|].
  destruct a as [|c' a']; simpl.
  - intros ->%Ascii.eqb_eq. by exists "".
  - intros H. destruct (IH H) as (a0 & Ha). exists (String c a0).
    change (String c (String c' a') = String c (a0 +:+ String ch "")).
    by f_equal.
Qed.

Lemma basename_no_sep f : Py.contains "/" f = false → Py.basename f = f.
Proof. intros Hf. unfold Py.basename. by rewrite (rfind_absent _ _ Hf). Qed.

(** [os.path.basename(os.path.join(a, f))] is [f] for a name [f] without a
    separator. *)
Lemma basename_of_join a f :
  Py.contains "/" f = false → Py.basename (Py.join a f) = f.
Proof.
  intros Hf. unfold Py.join.
  assert (Py.startswith "/" f = false) as ->.
  { destruct f; simpl in *; [done|]. by apply orb_false_elim in Hf as [? _]. }
  case_bool_decide as Ha; simpl.
  { subst a. by apply basename_no_sep. }
  destruct (Py.endswith "/" a) eqn:Hend.
  - destruct (endswith_split _ _ Hend) as (a' & ->).
    rewrite append_sep_assoc. unfold Py.basename. by apply slice_after_last.
  - change (a +:+ "/" +:+ f) with (a +:+ String "/" f).
    unfold Py.basename. by apply slice_after_last.
Qed.

(** X18: a built record has an after path exactly when the after folder
    holds a file of the very name of the before image (the same extension,
    in the same letter case), and the path is then [after/] followed by that
    name; a before image without such a file is indexed all the same. *)
Theorem built_record_after_path st listing :
  database_loaded st = false →
  dirs st !! FULL_BEFORE_FOLDER = Some listing →
  Forall (λ f, Py.contains "/" f = false) listing →
  face_database (load_database st)
  = omap (λ f, (λ v, mk_entry (Py.join BEFORE_FOLDER_NAME f)
                       (if path_exists (Py.join FULL_AFTER_FOLDER f) st
                        then Some (Py.join AFTER_FOLDER_NAME f) else None)
                       (Some v)
                       (metadata_mapping (load_database st) !! (Py.splitext f).1))
                <$> embedded st f) listing.
Proof.
  intros Hloaded Hdir Hslash.
  destruct (load_database_built st listing Hloaded Hdir) as (evs & -> & _).
  cbn [face_database metadata_mapping]. clear Hdir.
  induction Hslash as [|f l Hf _ IH]; [done|].
  cbn [omap list_omap]. destruct (embedded st f) as [v|]; simpl; [|exact IH].
  f_equal; [|exact IH]. unfold record_of.
  rewrite !(basename_of_join _ _ Hf). done.
Qed.

(** *** When nothing can be compared *)

(** X19: once the query is embedded, the handler answers
    ["DB_COMPARE_ERROR"] exactly when no record of the gallery yields a
    distance: each record has no array for an embedding, or one of another
    shape than the query's, or [cosine] raises on it. *)
Theorem match_face_compare_error_iff file st q rest :
  accepted file st →
  represent (Some (content file)) true = Objs (q :: rest) →
  error_type (match_face (Some file) st).1 = Some "DB_COMPARE_ERROR"
  ↔ ∀ e v, e ∈ face_database st → embedding e = Some v →
       length v = length q → cosine q v = None.
Proof.
  intros Hacc Hr.
  destruct (match_face_scanned file st q rest Hacc Hr)
    as (post & resp & fs & -> & _ & Hcases). cbn [fst].
  destruct (scan_spec q (face_database st) 0 [] [])
    as (new & new_evs & Hscan & _ & _ & Hnew & Hall & _).
  rewrite Hscan in Hcases. cbn [fst app] in Hcases.
  assert (new = [] ↔ ∀ e v, e ∈ face_database st → embedding e = Some v →
                       length v = length q → cosine q v = None) as Hiff.
  { split.
    - intros -> e v (j & Hj)%list_elem_of_lookup_1 Hv Hlen.
      specialize (Hall j e v Hj Hv Hlen).
      destruct (cosine q v); [by apply elem_of_nil in Hall|done].
    - intros Hnone. destruct new as [|d new]; [done|].
      destruct (Hnew d) as (j & e & v & _ & Hj & Hv & Hlen & Hcos); [by left|].
      rewrite (Hnone e v) in Hcos; [done| |done..].
      by eapply list_elem_of_lookup_2. }
  rewrite <-Hiff.
  destruct Hcases as [(Hd & -> & _)|[(Hd & -> & _)|(Hd & _ & url & ms & -> & _)]];
    simpl; split; done.
Qed.

(** *** What an answer depends on *)

Lemma prepare_matches_response (top : list (dist_rec float)) :
  ∀ i acc st st',
    face_database st = face_database st' →
    (prepare_matches top i acc st).1 = (prepare_matches top i acc st').1
    ∧ face_database (prepare_matches top i acc st).2
      = face_database (prepare_matches top i acc st').2.
Proof.
  induction top as [|d top IH]; intros i acc st st' Hdb; simpl; [done|].
  rewrite <-Hdb. destruct (face_database st !! index d) as [e|]; [|done].
  destruct (url_for_database_image BEFORE_FOLDER_NAME _); [|done].
  match goal with
  | |- context [match ?x with Some _ => _ | None => (None, _) end] => destruct x
  end; [|done].
  by apply IH.
Qed.

(** X20: for an upload that is accepted and saved in two states (the upload
    folder is there and no directory sits at the upload's path), the
    response is decided by the upload and the gallery index: the log, the
    metadata mapping and the files left by earlier requests play no part. *)
Theorem match_face_response_depends_on_index file st st' :
  accepted file st →
  accepted file st' →
  dirs st !! uploaded_filepath file = None →
  dirs st' !! uploaded_filepath file = None →
  face_database st = face_database st' →
  (match_face (Some file) st).1 = (match_face (Some file) st').1.
Proof.
  intros Hacc Hacc' _ _ Hdb.
  assert (database_loaded st = database_loaded st') as Hloaded.
  { destruct Hacc as (-> & _), Hacc' as (-> & _). done. }
  assert (is_Some (dirs st !! FULL_UPLOAD_FOLDER)
          ↔ is_Some (dirs st' !! FULL_UPLOAD_FOLDER)) as Hdir.
  { destruct Hacc as (_ & _ & _ & _ & ?), Hacc' as (_ & _ & _ & _ & ?). done. }
  clear Hacc Hacc'.
  unfold match_face. rewrite <-Hdb, <-Hloaded.
  destruct (negb _ || _); [done|].
  case_bool_decide; [done|]. destruct (allowed_file _); [|done].
  set (fn := secure_filename (filename file)).
  set (p := Py.join FULL_UPLOAD_FOLDER fn).
  assert ((match_body file fn p st).1 = (match_body file fn p st').1) as Hbody.
  { unfold match_body, write_file.
    rewrite (bool_decide_ext _ _ Hdir). case_bool_decide; [|done].
    cbn [files log set_files]. rewrite !lookup_insert_eq.
    destruct (represent _ true) as [[|q rest]|e|e]; [done| |done..].
    cbn [face_database log set_files]. rewrite <-Hdb.
    destruct (scan q (face_database st) 0 ([], [])) as [distances evs].
    case_bool_decide; [done|].
    set (top := take _ _).
    match goal with
    | |- (let (_, _) := prepare_matches top 0 [] ?s1 in _).1
         = (let (_, _) := prepare_matches top 0 [] ?s2 in _).1 =>
        destruct (prepare_matches_response top 0 [] s1 s2) as [Hresp _]; [done|];
        destruct (prepare_matches top 0 [] s1) as [[ms|] st1],
                 (prepare_matches top 0 [] s2) as [[ms'|] st2];
        cbn [fst] in Hresp; try done
    end.
    injection Hresp as ->.
    destruct (url_for_uploaded_file fn); [|done].
    by case_bool_decide. }
  destruct (match_body file fn p st) as [[resp|] st1],
           (match_body file fn p st') as [[resp'|] st2];
    cbn [fst] in Hbody; try done.
  by injection Hbody as ->.
Qed.


(** *** How often the scan compares *)

Lemma scan_calls (q : list float) (db : list Entry) :
  ∀ i acc,
    ∃ new_evs,
      (scan q db i acc).2 = acc.2 ++ new_evs
      ∧ StronglySorted lt (cosine_calls new_evs)
      ∧ Forall (λ k, i ≤ k)%nat (cosine_calls new_evs)
      ∧ length (cosine_calls new_evs) = length (filter (comparable q) db).
Proof.
  induction db as [|e db IH]; intros i [ds0 evs0]; cbn [scan].
  { exists []. cbn [snd]. rewrite (right_id_L [] (++)).
    split_and!; [done|constructor|constructor|done]. }
  destruct (scan_entry_spec q ds0 evs0 i e) as (n1 & e1 & -> & Hcalls & _).
  destruct (IH (S i) (ds0 ++ n1, evs0 ++ e1)) as (evs' & -> & Hsorted & Hge & Hlen).
  exists (e1 ++ evs'). cbn [snd]. rewrite cosine_calls_app, filter_cons.
  split; [by rewrite <-(assoc_L (++))|].
  destruct (decide (comparable q e)) as [Hc|Hc].
  - rewrite Hcalls. simpl. split_and!.
    + constructor; [done|]. eapply Forall_impl; [exact Hge|]. simpl. lia.
    + constructor; [done|]. eapply Forall_impl; [exact Hge|]. simpl. lia.
    + by rewrite Hlen.
  - subst e1. rewrite cosine_calls_skip_warning. simpl. split_and!; [done| |done].
    eapply Forall_impl; [exact Hge|]. simpl. lia.
Qed.

(** X21: one request makes one call of [cosine] for each record whose
    embedding has the query's shape, in the order of the gallery, and none
    twice: the positions called are strictly increasing and their number is
    the number of such records. *)
Theorem match_face_compares_each_record_once file st q rest :
  accepted file st →
  represent (Some (content file)) true = Objs (q :: rest) →
  ∃ evs,
    trace (match_face (Some file) st).2 = trace st ++ evs
    ∧ StronglySorted lt (cosine_calls evs)
    ∧ length (cosine_calls evs)
      = length (filter (comparable q) (face_database st)).
Proof.
  intros Hacc Hr. destruct (scan_trace file st q rest Hacc Hr) as (post & -> & Hpost).
  destruct (scan_calls q (face_database st) 0 ([], []))
    as (evs & -> & Hsorted & _ & Hlen).
  eexists. split; [done|]. cbn [snd app].
  change (?x :: ?l ++ post) with ([x] ++ l ++ post).
  rewrite !cosine_calls_app, Hpost, (right_id_L [] (++)). simpl. done.
Qed.

(** ** Where an upload can land *)

Lemma append_assoc (a b c : string) : (a +:+ b) +:+ c = a +:+ b +:+ c.
Proof.
  induction a as [|ch a IH]; [done|].
  change (String ch ((a +:+ b) +:+ c) = String ch (a +:+ b +:+ c)). by f_equal.
Qed.

Lemma append_empty_r (a : string) : a +:+ "" = a.
Proof.
  induction a as [|ch a IH]; [done|].
  change (String ch (a +:+ "") = String ch a). by f_equal.
Qed.

(** [os.path.join(a, b)] is [a], a separator where one is needed, and [b],
    when [b] is not absolute. *)
Lemma join_relative a :
  ∃ t, ∀ b, Py.startswith "/" b = false → Py.join a b = a +:+ t +:+ b.
Proof.
  unfold Py.join. destruct (_ || _).
  - exists "". by intros b ->.
  - exists "/". by intros b ->.
Qed.

(** The paths below the database folder. *)
Definition under_database (p : string) : Prop :=
  ∃ suffix, p = Py.join BASE_DIR DATABASE_PATH +:+ suffix.

Lemma under_database_join a b :
  under_database a → Py.startswith "/" b = false → under_database (Py.join a b).
Proof.
  intros [s ->] Hb. destruct (join_relative (Py.join BASE_DIR DATABASE_PATH +:+ s))
    as (t & Ht).
  rewrite (Ht b Hb), append_assoc. by eexists.
Qed.

Lemma under_database_root : under_database (Py.join BASE_DIR DATABASE_PATH).
Proof. exists "". by rewrite append_empty_r. Qed.

Lemma under_database_cache : under_database (Py.join BASE_DIR DB_PICKLE_FILE).
Proof.
  destruct (join_relative BASE_DIR) as (t & Ht).
  exists "/face_db.pkl". rewrite !Ht by done. by rewrite !append_assoc.
Qed.

(** The path of an upload is below the upload folder, so it is no path
    below the database folder. *)
Lemma uploaded_filepath_not_under_database file :
  Py.startswith "/" (secure_filename (filename file)) = false →
  ¬ under_database (uploaded_filepath file).
Proof.
  intros Hfn [s Heq]. unfold uploaded_filepath, FULL_UPLOAD_FOLDER in Heq.
  destruct (join_relative BASE_DIR) as (t & Ht).
  rewrite !Ht in Heq by done.
  destruct (join_relative (BASE_DIR +:+ t +:+ UPLOAD_FOLDER)) as (t' & Ht').
  rewrite (Ht' _ Hfn), !append_assoc in Heq.
  apply (inj (String.app BASE_DIR)), (inj (String.app t)) in Heq.
  simpl in Heq. discriminate.
Qed.

(** X22: as long as [secure_filename] gives a name without a separator for
    the upload (werkzeug's contract), a request changes no file below the
    database folder: not the cache, not the metadata document, and no before
    or after image of the gallery. *)
Theorem match_face_leaves_the_gallery_alone req st :
  (∀ file, req = Some file →
     Py.contains "/" (secure_filename (filename file)) = false) →
  let unchanged p := files (match_face req st).2 !! p = files st !! p in
  unchanged (Py.join BASE_DIR DB_PICKLE_FILE)
  ∧ unchanged (Py.join (Py.join BASE_DIR DATABASE_PATH) "scraped_data.json")
  ∧ ∀ f, Py.startswith "/" f = false →
      unchanged (Py.join FULL_BEFORE_FOLDER f)
      ∧ unchanged (Py.join FULL_AFTER_FOLDER f).
Proof.
  intros Hfn unchanged.
  assert (∀ p, under_database p → unchanged p) as Hunder.
  { intros p Hp. unfold unchanged.
    destruct (match_face_touches_only req st) as [H|(file & Hreq & H)].
    - destruct (H (String "x" p)) as (_ & _ & _ & _ & _ & Hf).
      apply Hf. intros Heq. by apply (string_cons_ne "x" p).
    - destruct H as (_ & _ & _ & _ & _ & Hf). apply Hf. intros ->.
      revert Hp. apply uploaded_filepath_not_under_database.
      specialize (Hfn file Hreq).
      destruct (secure_filename (filename file)); simpl in *; [done|].
      by apply orb_false_elim in Hfn as [? _]. }
  assert (under_database FULL_DATABASE_IMAGES_PATH) as Himages
    by (by apply under_database_join; [apply under_database_root|]).
  split_and!.
  - apply Hunder, under_database_cache.
  - by apply Hunder, under_database_join; [apply under_database_root|].
  - intros f Hf.
    split; apply Hunder; (apply under_database_join; [|done]);
      by apply under_database_join.
Qed.

End App.

(** ** Examples

    The helpers of [os.path] and [allowed_file]. *)

Example splitext_png : Py.splitext "case12.png" = ("case12", ".png").
Proof. reflexivity. Qed.

Example splitext_hidden : Py.splitext ".png" = (".png", "").
Proof. reflexivity. Qed.

Example basename_join : Py.basename (Py.join "before" "a.b.JPG") = "a.b.JPG".
Proof. reflexivity. Qed.

Example str_of_nat_3 : Py.str_of_nat 3 = "3".
Proof. reflexivity. Qed.

Example allowed_upper : allowed_file "Face.JPG" = true.
Proof. vm_compute. reflexivity. Qed.

Example allowed_none : allowed_file "notes.txt" = false.
Proof. vm_compute. reflexivity. Qed.

Example allowed_nodot : allowed_file "png" = false.
Proof. vm_compute. reflexivity. Qed.

(** Equal distances keep the order of their indices; the sort is stable. *)
Example sort_ties_by_index :
  index <$> sort_by_distance Z.ltb [mk_dist 0 5; mk_dist 1 3; mk_dist 2 5; mk_dist 3 3]
  = [1; 3; 0; 2]%nat.
Proof. reflexivity. Qed.

(** ** A small gallery

    A concrete instance: embeddings and distances are integers, [cosine] is
    stood in for by the sum of the component-wise differences, and a file's
    content says what the provider finds in it. *)

Inductive demo_bytes :=
  | Face (v : list Z)
  | NoFace
  | Corrupt
  | Json (l : list meta_item)
  | Pickled (db : list (entry Z)).

Definition demo_represent (img : option demo_bytes) (enforce_detection : bool)
    : represent_result Z :=
  match img with
  | Some (Face v) => Objs [v]
  | Some NoFace =>
      if enforce_detection then RaiseValueError "Face could not be detected."
      else Objs []
  | _ => RaiseException "cannot identify image file"
  end.

Definition demo_cosine (u v : list Z) : option Z :=
  Some (foldr Z.add 0 (zip_with (λ x y, Z.abs (x - y)) u v)).

Definition demo_json_load (b : demo_bytes) : option (list meta_item) :=
  match b with Json l => Some l | _ => None end.

Definition demo_pickle_load (b : demo_bytes) : option (list (entry Z)) :=
  match b with Pickled db => Some db | _ => None end.

Definition demo_url_for_database_image (subdir filename : string) : option string :=
  Some ("/database_images/" +:+ subdir +:+ "/" +:+ filename).

Definition demo_url_for_uploaded_file (filename : string) : option string :=
  Some ("/uploads/" +:+ filename).

Definition demo_files : gmap string demo_bytes :=
  {[ "/app/database/scraped_data.json" :=
       Json [ {[ "case_id" := "a"; "procedure" := "rhinoplasty" ]} ];
     "/app/database/images/before/a.png" := Face [1; 0];
     "/app/database/images/before/a.jpg" := Face [0; 1];
     "/app/database/images/before/z.png" := Face [0; 0];
     "/app/database/images/before/b.png" := NoFace;
     "/app/database/images/before/c.png" := Corrupt;
     "/app/database/images/after/a.png" := Face [1; 1] ]}.

Definition demo_dirs : gmap string (list string) :=
  {[ "/app/uploads" := [];
     "/app/database" := ["images"; "scraped_data.json"];
     "/app/database/images/before" :=
       ["a.png"; "notes.txt"; "b.png"; "a.jpg"; "c.png"; "z.png"];
     "/app/database/images/after" := ["a.png"] ]}.

(** A fresh process, and the same process after its first build. *)
Definition demo_start : state Z demo_bytes :=
  mk_state [] ∅ false demo_files demo_dirs [].

Definition demo_built : state Z demo_bytes :=
  load_database demo_represent demo_json_load Pickled "/app" demo_start.

Definition demo_match_face (req : option (upload demo_bytes))
    (st : state Z demo_bytes) : response Z * state Z demo_bytes :=
  match_face Z.ltb (λ d, 1 - d) demo_cosine demo_represent (λ s, s)
             demo_url_for_database_image demo_url_for_uploaded_file "/app" req st.

Definition demo_query : upload demo_bytes := mk_upload "me.jpg" (Face [1; 0]).
Definition demo_no_face : upload demo_bytes := mk_upload "wall.png" NoFace.

Definition demo_listing : list string :=
  ["a.png"; "notes.txt"; "b.png"; "a.jpg"; "c.png"; "z.png"].

(** The process that starts over the files the build left. *)
Definition demo_restart : state Z demo_bytes :=
  mk_state [] ∅ false (files (save_cache Pickled "/app" demo_built)) demo_dirs [].

Definition demo_startup (st : state Z demo_bytes) : state Z demo_bytes * bool :=
  startup demo_json_load demo_pickle_load "/app" st.

(** [Z.ltb] is a strict weak order on all of [Z], and [1 - d] is antitone. *)
Lemma Z_ltb_asym (x y : Z) : True → True → (x <? y) = true → (y <? x) = false.
Proof. intros _ _ H%Z.ltb_lt. apply Z.ltb_ge. lia. Qed.

Lemma Z_ltb_negtrans (x y z : Z) :
  True → True → True → (x <? z) = true → (x <? y) = true ∨ (y <? z) = true.
Proof.
  intros _ _ _ H%Z.ltb_lt. destruct (Z.ltb_spec x y); [by left|].
  right. apply Z.ltb_lt. lia.
Qed.

Lemma Z_one_minus_antitone (x y : Z) :
  (y <? x) = false → (1 - x <? 1 - y) = false.
Proof. intros H%Z.ltb_ge. apply Z.ltb_ge. lia. Qed.

(** So every list of integer distances is sortable. *)
Lemma demo_sortable (l : list (dist_rec Z)) : sortable Z.ltb l.
Proof.
  exists (λ _, True). split; [split; [exact Z_ltb_asym|exact Z_ltb_negtrans]|].
  by apply Forall_forall.
Qed.

Ltac demo_accepted :=
  unfold accepted; split_and!;
  [vm_compute; reflexivity
  |vm_compute; discriminate
  |discriminate
  |vm_compute; reflexivity
  |vm_compute; by eexists].

(** The query [1; 0] against the built gallery: three matches come back,
    ranked by similarity. *)
Lemma match_face_top3_ranked_witness :
  ∃ ms,
    matches (demo_match_face (Some demo_query) demo_built).1 = Some ms
    ∧ (length ms ≤ 3)%nat
    ∧ similarity <$> ms = [1; 0; -1]
    ∧ StronglySorted (λ a b, (similarity a <? similarity b) = false) ms.
Proof.
  eexists. split; [vm_compute; reflexivity|].
  split; [|split; [vm_compute; reflexivity|]];
  eapply (match_face_top3_ranked Z.ltb (λ d, 1 - d) demo_cosine demo_represent
            (λ s, s) demo_url_for_database_image demo_url_for_uploaded_file "/app"
            (λ _, True) Z_ltb_asym Z_ltb_negtrans Z_one_minus_antitone
            demo_query demo_built [1; 0] []);
    try demo_accepted; try (vm_compute; reflexivity);
    vm_compute; repeat constructor.
Defined.

(** *** A distance that is not a number

    Floats with a NaN: [<] is false as soon as one side is NaN, and
    [1 - NaN] is NaN. *)
Inductive pyfloat :=
  | Num (z : Z)
  | NaN.

Definition pyfloat_lt (x y : pyfloat) : bool :=
  match x, y with
  | Num a, Num b => a <? b
  | _, _ => false
  end.

Definition pyfloat_one_minus (x : pyfloat) : pyfloat :=
  match x with
  | Num a => Num (1 - a)
  | NaN => NaN
  end.

(** On the floats that are numbers, [<] is a strict weak order: a list of
    distances without a NaN is sortable. *)
Lemma pyfloat_lt_strict_weak_order : strict_weak_order pyfloat_lt (λ x, x ≠ NaN).
Proof.
  split.
  - intros [a|] [b|] _ _; simpl; try done. intros H%Z.ltb_lt. apply Z.ltb_ge. lia.
  - intros [a|] [b|] [c|] _ Hb _; simpl; try done.
    intros H%Z.ltb_lt. destruct (Z.ltb_spec a b); [by left|].
    right. apply Z.ltb_lt. lia.
Qed.

Definition pyfloat_dot (u v : list pyfloat) : Z :=
  foldr Z.add 0
    (zip_with (λ x y, match x, y with Num a, Num b => a * b | _, _ => 0 end) u v).

(** scipy's [cosine], [1 - u.v / (|u| |v|)], on the vectors of the example:
    NaN (from 0/0) when one of the two is the zero vector, and [1 - u.v] on
    unit vectors. *)
Definition nan_cosine (u v : list pyfloat) : option pyfloat :=
  if bool_decide (pyfloat_dot u u = 0) || bool_decide (pyfloat_dot v v = 0)
  then Some NaN
  else Some (Num (1 - pyfloat_dot u v)).

Definition nan_represent (img : option demo_bytes) (enforce_detection : bool)
    : represent_result pyfloat :=
  match img with
  | Some (Face v) => Objs [Num <$> v]
  | _ => RaiseException "cannot identify image file"
  end.

(** A loaded gallery of three records; the second holds the zero vector. *)
Definition nan_gallery : state pyfloat demo_bytes :=
  mk_state [mk_entry "before/b.png" None (Some [Num 0; Num 1]) None;
            mk_entry "before/z.png" None (Some [Num 0; Num 0]) None;
            mk_entry "before/a.png" None (Some [Num 1; Num 0]) None]
           ∅ true ∅ {[ "/app/uploads" := [] ]} [].

Definition nan_match_face (req : option (upload demo_bytes))
    (st : state pyfloat demo_bytes) : response pyfloat * state pyfloat demo_bytes :=
  match_face pyfloat_lt pyfloat_one_minus nan_cosine nan_represent (λ s, s)
             demo_url_for_database_image demo_url_for_uploaded_file "/app" req st.

(** C1 fails on the code: the scan computes the distances 1, NaN and 0 for
    the three records.  No element of that list is [<] the one before it, so
    the sort leaves it as it is, and the matches come back with the
    similarities 0, NaN and 1: the nearest record is the last one. *)
Lemma nan_distance_breaks_the_ranking :
  (scan nan_cosine [Num 1; Num 0] (face_database nan_gallery) 0 ([], [])).1
  = [mk_dist 0 (Num 1); mk_dist 1 NaN; mk_dist 2 (Num 0)]
  ∧ fmap (M:=option) (fmap similarity)
      (matches (nan_match_face (Some demo_query) nan_gallery).1)
    = Some [Num 0; NaN; Num 1]
  ∧ fmap (M:=option) (fmap match_before_url)
      (matches (nan_match_face (Some demo_query) nan_gallery).1)
    = Some ["/database_images/before/b.png"; "/database_images/before/z.png";
            "/database_images/before/a.png"]
  ∧ pyfloat_lt (Num 0) (Num 1) = true.
Proof. vm_compute. done. Qed.

(** C2 fails on the code: [a.png] and [a.jpg] are both embedded, and their
    two records have the identifier [a]. *)
Lemma identifier_shared_by_two_records :
  ¬ NoDup (identifier <$> face_database demo_built).
Proof.
  vm_compute. intros H. apply NoDup_cons in H as [H _]. apply H. by left.
Qed.

Lemma built_index_identifiers_witness :
  NoDup demo_listing
  ∧ NoDup (before_path <$> face_database demo_built)
  ∧ identifier <$> face_database demo_built = ["a"; "a"; "z"].
Proof.
  assert (NoDup demo_listing) as Hnodup.
  { apply (bool_decide_unpack _). vm_compute. exact I. }
  split; [exact Hnodup|].
  destruct (built_index_identifiers demo_represent demo_json_load Pickled "/app"
              demo_start demo_listing) as (H1 & H2 & _).
  - vm_compute; reflexivity.
  - vm_compute; reflexivity.
  - exact Hnodup.
  - apply (bool_decide_unpack _). vm_compute. exact I.
  - split; [exact H1|]. etransitivity; [exact H2|]. vm_compute. reflexivity.
Defined.

(** C3 fails on the code: the record of [z.png] holds the zero vector, and
    the scan calls [cosine] on it like on any other record, whether [cosine]
    returns or raises; its distance is ranked with the others. *)
Lemma zero_vector_record_is_compared :
  embedding <$> face_database demo_built !! 2%nat = Some (Some [0; 0])
  ∧ cosine_calls (trace (demo_match_face (Some demo_query) demo_built).2)
    = [0; 1; 2]%nat
  ∧ cosine_calls
      (trace (match_face Z.ltb (λ d, 1 - d) (λ _ _, None) demo_represent (λ s, s)
                demo_url_for_database_image demo_url_for_uploaded_file "/app"
                (Some demo_query) demo_built).2)
    = [0; 1; 2]%nat
  ∧ fmap (M:=option) (fmap match_before_url)
      (matches (demo_match_face (Some demo_query) demo_built).1)
    = Some ["/database_images/before/a.png"; "/database_images/before/z.png";
            "/database_images/before/a.jpg"].
Proof. vm_compute. done. Qed.

Lemma scan_compares_every_record_of_query_shape_witness :
  ∃ evs,
    trace (demo_match_face (Some demo_query) demo_built).2 = trace demo_built ++ evs
    ∧ 2%nat ∈ cosine_calls evs.
Proof.
  destruct (scan_compares_every_record_of_query_shape Z.ltb (λ d, 1 - d) demo_cosine
              demo_represent (λ s, s) demo_url_for_database_image
              demo_url_for_uploaded_file "/app" demo_query demo_built [1; 0] [])
    as (evs & Htrace & Hall).
  - demo_accepted.
  - vm_compute; reflexivity.
  - exists evs. split; [exact Htrace|].
    destruct (Hall 2%nat (mk_entry "before/z.png" None (Some [0; 0]) None))
      as (Hcalls & _); [vm_compute; reflexivity|].
    apply Hcalls. exists [0; 0]. split; reflexivity.
Defined.


Lemma snapshot_round_trip_witness :
  face_database (demo_startup demo_restart).1 = face_database demo_built
  ∧ database_loaded (demo_startup demo_restart).1 = true
  ∧ (demo_startup demo_restart).2 = false.
Proof.
  assert (∀ db, demo_pickle_load (Pickled db) = Some db) as Hpickle
    by (intros db; reflexivity).
  assert (is_Some (dirs demo_built !! Py.join "/app" DATABASE_PATH)) as Hdir
    by (vm_compute; by eexists).
  assert (files demo_restart !! Py.join "/app" DB_PICKLE_FILE
          = files (save_cache Pickled "/app" demo_built) !! Py.join "/app" DB_PICKLE_FILE)
    as Hfiles by (vm_compute; reflexivity).
  exact (snapshot_round_trip demo_json_load demo_pickle_load Pickled "/app"
           Hpickle demo_built demo_restart Hdir Hfiles).
Defined.

Lemma load_database_already_loaded_witness :
  database_loaded demo_built = true
  ∧ face_database (load_database demo_represent demo_json_load Pickled "/app" demo_built)
    = face_database demo_built
  ∧ metadata_mapping (load_database demo_represent demo_json_load Pickled "/app"
                        demo_built)
    = metadata_mapping demo_built.
Proof.
  assert (database_loaded demo_built = true) as Hloaded by (vm_compute; reflexivity).
  split; [exact Hloaded|].
  destruct (load_database_already_loaded demo_represent demo_json_load Pickled "/app"
              demo_built Hloaded) as (_ & Hdb & Hmeta & _).
  split; [exact Hdb|exact Hmeta].
Defined.

Lemma match_face_no_face_detected_witness :
  (demo_match_face (Some demo_no_face) demo_built).1
  = failure "Could not process image: Face could not be detected." None
  ∧ cosine_calls (trace (demo_match_face (Some demo_no_face) demo_built).2)
    = cosine_calls (trace demo_built).
Proof.
  destruct (match_face_no_face_detected Z.ltb (λ d, 1 - d) demo_cosine demo_represent
              (λ s, s) demo_url_for_database_image demo_url_for_uploaded_file "/app"
              demo_no_face demo_built "Face could not be detected.")
    as (Hresp & _ & Hcalls & _).
  - demo_accepted.
  - left. vm_compute. reflexivity.
  - split; [exact Hresp|exact Hcalls].
Defined.

Lemma load_database_skips_failed_files_witness :
  database_loaded demo_built = true
  ∧ before_path <$> face_database demo_built
    = ["before/a.png"; "before/a.jpg"; "before/z.png"]
  ∧ Log INFO (LoadingComplete 3 2) ∈ trace demo_built.
Proof.
  destruct (load_database_skips_failed_files demo_represent demo_json_load Pickled
              "/app" demo_start demo_listing) as (Hloaded & Hdb & Hlog & _).
  - vm_compute; reflexivity.
  - vm_compute; reflexivity.
  - split; [exact Hloaded|]. split.
    + unfold demo_built. rewrite Hdb. vm_compute. reflexivity.
    + assert (length (face_database demo_built) = 3%nat) as Hlen
        by (vm_compute; reflexivity).
      assert (length (filter (λ f, failed_file demo_represent "/app" demo_start f)
                        demo_listing) = 2%nat) as Hfailed
        by (vm_compute; reflexivity).
      unfold demo_built in Hlen |- *. rewrite Hlen, Hfailed in Hlog. exact Hlog.
Defined.

Lemma match_face_not_ready_witness :
  database_loaded demo_start = false
  ∧ demo_match_face (Some demo_query) demo_start
    = (failure "Face database is not ready. Please wait or contact administrator."
               None,
       log WARNING MatchRequestNotReady demo_start).
Proof.
  assert (database_loaded demo_start = false) as Hloaded by reflexivity.
  split; [exact Hloaded|].
  apply (match_face_not_ready Z.ltb (λ d, 1 - d) demo_cosine demo_represent
           demo_json_load Pickled (λ s, s) demo_url_for_database_image
           demo_url_for_uploaded_file "/app" (Some demo_query) demo_start).
  left. exact Hloaded.
Defined.

Lemma match_face_upload_cleanup_witness :
  files (demo_match_face (Some demo_query) demo_built).2 !! "/app/uploads/me.jpg"
  = Some (Face [1; 0])
  ∧ files (demo_match_face (Some demo_no_face) demo_built).2 !! "/app/uploads/wall.png"
    = None.
Proof.
  split.
  - apply (match_face_upload_cleanup Z.ltb (λ d, 1 - d) demo_cosine demo_represent
             (λ s, s) demo_url_for_database_image demo_url_for_uploaded_file "/app"
             demo_query demo_built); [demo_accepted|vm_compute; reflexivity].
  - apply (match_face_upload_cleanup Z.ltb (λ d, 1 - d) demo_cosine demo_represent
             (λ s, s) demo_url_for_database_image demo_url_for_uploaded_file "/app"
             demo_no_face demo_built); [demo_accepted|vm_compute; reflexivity].
Defined.

(** ** More of the small gallery *)

Definition demo_load_database (st : state Z demo_bytes) : state Z demo_bytes :=
  load_database demo_represent demo_json_load Pickled "/app" st.

(** The fresh process without its metadata document. *)
Definition demo_no_metadata : state Z demo_bytes :=
  mk_state [] ∅ false (delete "/app/database/scraped_data.json" demo_files)
           demo_dirs [].

(** The built gallery without its upload folder. *)
Definition demo_no_uploads : state Z demo_bytes :=
  mk_state (face_database demo_built) (metadata_mapping demo_built) true
           (files demo_built) (delete "/app/uploads" demo_dirs) [].

Definition demo_corrupt : upload demo_bytes := mk_upload "blob.webp" Corrupt.
Definition demo_text : upload demo_bytes := mk_upload "notes.txt" Corrupt.

(** A gallery in which no file has a face, and the process that starts over
    the cache its build wrote. *)
Definition demo_faceless : state Z demo_bytes :=
  mk_state [] ∅ false
           {[ "/app/database/images/before/b.png" := NoFace ]}
           {[ "/app/uploads" := [];
              "/app/database" := ["images"];
              "/app/database/images/before" := ["b.png"; "notes.txt"] ]}
           [].

Definition demo_faceless_restart : state Z demo_bytes :=
  mk_state [] ∅ false (files (demo_load_database demo_faceless))
           (dirs demo_faceless) [].

(** An upload whose embedding has three components, against a gallery of
    two-component embeddings. *)
Definition demo_wide : upload demo_bytes := mk_upload "wide.png" (Face [1; 0; 0]).


(** ** The further properties on the small gallery *)

(** Of the five image files of the listing, each is indexed or counted as
    failed; [notes.txt] is neither. *)
Lemma load_database_accounts_for_every_file_witness :
  (length (face_database demo_built)
   + length (filter (λ f, failed_file demo_represent "/app" demo_start f) demo_listing))%nat
  = length (filter (λ f, allowed_file f) demo_listing).
Proof.
  apply (load_database_accounts_for_every_file demo_represent demo_json_load Pickled
           "/app" demo_start demo_listing); vm_compute; reflexivity.
Defined.

(** Without [scraped_data.json] the gallery is built all the same; no record
    has metadata. *)
Lemma load_database_without_metadata_witness :
  read_metadata demo_json_load "/app" demo_no_metadata = None
  ∧ metadata_mapping (demo_load_database demo_no_metadata) = ∅
  ∧ Forall (λ e, metadata e = None) (face_database (demo_load_database demo_no_metadata)).
Proof.
  assert (read_metadata demo_json_load "/app" demo_no_metadata = None) as Hmeta
    by (vm_compute; reflexivity).
  split; [exact Hmeta|].
  destruct (load_database_without_metadata demo_represent demo_json_load Pickled
              "/app" demo_no_metadata demo_listing) as (Hm & Hall & _);
    [vm_compute; reflexivity..|exact Hmeta|].
  split; [exact Hm|exact Hall].
Defined.

(** The metadata document of the small gallery: every item has a case id,
    and each id is mapped to the last item that carries it. *)
Lemma read_metadata_last_item_wins_witness :
  ∃ m, read_metadata demo_json_load "/app" demo_start = Some m
       ∧ ∃ metadata_list,
           Forall (λ item, is_Some (item !! "case_id")) metadata_list
           ∧ ∀ k, m !! k = last (items_of k metadata_list).
Proof.
  assert (is_Some (read_metadata demo_json_load "/app" demo_start)) as [m Hm]
    by (apply (bool_decide_unpack _); vm_compute; exact I).
  exists m. split; [exact Hm|].
  destruct (read_metadata_last_item_wins demo_json_load "/app" demo_start m Hm)
    as (l & _ & Hall & Hlookup).
  exists l. split; [exact Hall|exact Hlookup].
Defined.

(** In the built gallery a record that has metadata has the item whose case
    id is the record's identifier. *)
Lemma built_record_metadata_witness :
  Forall (λ e, ∀ item, metadata e = Some item →
                 item !! "case_id" = Some (identifier e))
         (face_database demo_built).
Proof.
  eapply Forall_impl.
  - apply (built_record_metadata demo_represent demo_json_load Pickled "/app"
             demo_start demo_listing); [vm_compute; reflexivity..|].
    apply (bool_decide_unpack _). vm_compute. exact I.
  - intros e [_ H]. exact H.
Defined.

(** A request without a file, and one with a text file: both are turned down
    and the state is untouched. *)
Lemma match_face_rejects_upload_witness :
  demo_match_face None demo_built
  = (failure "No file part in the request." None, demo_built)
  ∧ demo_match_face (Some demo_text) demo_built
    = (failure "File type not allowed." None, demo_built).
Proof.
  split.
  - apply (match_face_rejects_upload Z.ltb (λ d, 1 - d) demo_cosine demo_represent
             (λ s, s) demo_url_for_database_image demo_url_for_uploaded_file "/app"
             None demo_built); [vm_compute; reflexivity|vm_compute; discriminate|exact I].
  - apply (match_face_rejects_upload Z.ltb (λ d, 1 - d) demo_cosine demo_represent
             (λ s, s) demo_url_for_database_image demo_url_for_uploaded_file "/app"
             (Some demo_text) demo_built);
      [vm_compute; reflexivity|vm_compute; discriminate|right; vm_compute; reflexivity].
Defined.

(** Without the upload folder the save fails: the generic error is the
    answer and the one log line. *)
Lemma match_face_save_fails_witness :
  dirs demo_no_uploads !! FULL_UPLOAD_FOLDER "/app" = None
  ∧ (demo_match_face (Some demo_query) demo_no_uploads).1
    = failure "An internal server error occurred." None
  ∧ trace (demo_match_face (Some demo_query) demo_no_uploads).2
    = [Log ERROR (ErrorDuringMatching "me.jpg")].
Proof.
  assert (dirs demo_no_uploads !! FULL_UPLOAD_FOLDER "/app" = None) as Hdir
    by (vm_compute; reflexivity).
  split; [exact Hdir|].
  destruct (match_face_save_fails Z.ltb (λ d, 1 - d) demo_cosine demo_represent
              (λ s, s) demo_url_for_database_image demo_url_for_uploaded_file "/app"
              demo_query demo_no_uploads) as (Hresp & Htrace & _);
    [vm_compute; reflexivity|vm_compute; discriminate|discriminate
    |vm_compute; reflexivity|exact Hdir|].
  split; [exact Hresp|exact Htrace].
Defined.

(** The provider fails on a corrupt upload with an error that is no
    [ValueError]: the fixed message is returned and the upload removed. *)
Lemma match_face_unexpected_provider_error_witness :
  (demo_match_face (Some demo_corrupt) demo_built).1
  = failure "An unexpected error occurred during image processing." None
  ∧ files (demo_match_face (Some demo_corrupt) demo_built).2 !! "/app/uploads/blob.webp"
    = None.
Proof.
  destruct (match_face_unexpected_provider_error Z.ltb (λ d, 1 - d) demo_cosine
              demo_represent (λ s, s) demo_url_for_database_image
              demo_url_for_uploaded_file "/app" demo_corrupt demo_built
              "cannot identify image file") as (Hresp & _ & Hfile);
    [demo_accepted|vm_compute; reflexivity|].
  split; [exact Hresp|exact Hfile].
Defined.

(** The three matches of the query: only [a.png] has an after image, and each
    match is the rendering of its record. *)
Lemma match_face_renders_records_witness :
  ∃ ms top,
    matches (demo_match_face (Some demo_query) demo_built).1 = Some ms
    ∧ match_after_url <$> ms = [Some "/database_images/after/a.png"; None; None]
    ∧ Forall2 (rendered (λ d, 1 - d) demo_url_for_database_image demo_built) ms top
    ∧ top = take 3 (sort_by_distance Z.ltb
                      (scan demo_cosine [1; 0] (face_database demo_built) 0 ([], [])).1).
Proof.
  assert (∃ ms, matches (demo_match_face (Some demo_query) demo_built).1 = Some ms
                ∧ match_after_url <$> ms
                  = [Some "/database_images/after/a.png"; None; None])
    as (ms & Hms & Hafter) by (eexists; split; vm_compute; reflexivity).
  destruct (match_face_renders_records Z.ltb (λ d, 1 - d) demo_cosine demo_represent
              (λ s, s) demo_url_for_database_image demo_url_for_uploaded_file "/app"
              demo_query demo_built [1; 0] [] ms) as (top & Hrendered & _ & Htop);
    [demo_accepted|vm_compute; reflexivity|exact Hms|].
  exists ms, top. split_and!; [exact Hms|exact Hafter|exact Hrendered|].
  apply Htop, demo_sortable.
Defined.

(** The three matches of the query stand for three distinct records. *)
Lemma match_face_matches_distinct_records_witness :
  ∃ ms top,
    matches (demo_match_face (Some demo_query) demo_built).1 = Some ms
    ∧ Forall2 (presents (λ d, 1 - d) demo_built) ms top
    ∧ NoDup (index <$> top)
    ∧ top = take 3 (sort_by_distance Z.ltb
                      (scan demo_cosine [1; 0] (face_database demo_built) 0 ([], [])).1).
Proof.
  assert (∃ ms, matches (demo_match_face (Some demo_query) demo_built).1 = Some ms)
    as (ms & Hms) by (eexists; vm_compute; reflexivity).
  destruct (match_face_matches_distinct_records Z.ltb (λ d, 1 - d) demo_cosine
              demo_represent (λ s, s) demo_url_for_database_image
              demo_url_for_uploaded_file "/app" demo_query demo_built [1; 0] [] ms)
    as (top & Hpresents & Hdistinct & _ & Htop);
    [demo_accepted|vm_compute; reflexivity|exact Hms|].
  exists ms, top. split_and!; [exact Hms|exact Hpresents|exact Hdistinct|].
  apply Htop, demo_sortable.
Defined.

(** No record of the built gallery is nearer to the query than the first
    match. *)
Lemma top3_are_nearest_witness :
  head (take 3 (sort_by_distance Z.ltb
          (scan demo_cosine [1; 0] (face_database demo_built) 0 ([], [])).1))
  = Some (mk_dist 0 0)
  ∧ Forall (λ d, (distance d <? 0) = false)
      (scan demo_cosine [1; 0] (face_database demo_built) 0 ([], [])).1.
Proof.
  assert (head (take 3 (sort_by_distance Z.ltb
                  (scan demo_cosine [1; 0] (face_database demo_built) 0 ([], [])).1))
          = Some (mk_dist 0 0)) as Hhead by (vm_compute; reflexivity).
  split; [exact Hhead|].
  pose proof (top3_are_nearest Z.ltb demo_cosine (λ _, True) Z_ltb_asym Z_ltb_negtrans
                [1; 0] (face_database demo_built)) as Hnearest.
  cbv zeta in Hnearest.
  destruct Hnearest as [_ Hfirst]; [vm_compute; repeat constructor|].
  apply Forall_forall. intros d Hd. exact (Hfirst (mk_dist 0 0) d Hhead Hd).
Defined.

(** Over the files a build left, start-up loads the cache and starts no
    build; in the fresh process it starts the build and leaves the flag
    clear. *)
Lemma startup_loads_or_builds_witness :
  database_loaded (demo_startup demo_restart).1 = true
  ∧ (demo_startup demo_restart).2 = false
  ∧ database_loaded (demo_startup demo_start).1 = false
  ∧ (demo_startup demo_start).2 = true.
Proof.
  assert ((demo_startup demo_restart).2
          = negb (database_loaded (demo_startup demo_restart).1)) as H1.
  { apply (startup_loads_or_builds demo_json_load demo_pickle_load "/app" demo_restart).
    reflexivity. }
  assert ((demo_startup demo_start).2
          = negb (database_loaded (demo_startup demo_start).1)) as H2.
  { apply (startup_loads_or_builds demo_json_load demo_pickle_load "/app" demo_start).
    reflexivity. }
  assert ((demo_startup demo_restart).2 = false) as H3 by (vm_compute; reflexivity).
  assert ((demo_startup demo_start).2 = true) as H4 by (vm_compute; reflexivity).
  rewrite H3 in H1. rewrite H4 in H2.
  split_and!; [|exact H3| |exact H4].
  - by destruct (database_loaded (demo_startup demo_restart).1).
  - by destruct (database_loaded (demo_startup demo_start).1).
Defined.

(** The gallery without a face: its build writes an empty cache, and the
    process that starts over it answers "not ready" and starts no build. *)
Lemma empty_snapshot_is_never_rebuilt_witness :
  face_database (demo_startup demo_faceless_restart).1 = []
  ∧ database_loaded (demo_startup demo_faceless_restart).1 = true
  ∧ (demo_startup demo_faceless_restart).2 = false
  ∧ (demo_match_face (Some demo_query) (demo_startup demo_faceless_restart).1).1
    = failure "Face database is not ready. Please wait or contact administrator." None.
Proof.
  destruct (empty_snapshot_is_never_rebuilt Z.ltb (λ d, 1 - d) demo_cosine
              demo_represent demo_json_load demo_pickle_load Pickled (λ s, s)
              demo_url_for_database_image demo_url_for_uploaded_file "/app"
              (λ db, eq_refl) demo_faceless ["b.png"; "notes.txt"]
              demo_faceless_restart) as (Hdb & Hflag & Hstart & Hreq & _).
  - reflexivity.
  - vm_compute; reflexivity.
  - intros f Hf. apply list_elem_of_In in Hf.
    destruct Hf as [<-|[<-|[]]]; vm_compute; reflexivity.
  - vm_compute. by eexists.
  - vm_compute; reflexivity.
  - split_and!; [exact Hdb|exact Hflag|exact Hstart|exact (Hreq (Some demo_query))].
Defined.

(** In the built gallery only [a.png] has a file of its name in the after
    folder. *)
Lemma built_record_after_path_witness :
  after_path <$> face_database demo_built = [Some "after/a.png"; None; None].
Proof.
  unfold demo_built.
  rewrite (built_record_after_path demo_represent demo_json_load Pickled "/app"
             demo_start demo_listing);
    [vm_compute; reflexivity|vm_compute; reflexivity..|].
  apply (bool_decide_unpack _). vm_compute. exact I.
Defined.

(** No record of the gallery has three components: the wide query is
    answered with ["DB_COMPARE_ERROR"]. *)
Lemma match_face_compare_error_iff_witness :
  error_type (demo_match_face (Some demo_wide) demo_built).1 = Some "DB_COMPARE_ERROR".
Proof.
  apply (match_face_compare_error_iff Z.ltb (λ d, 1 - d) demo_cosine demo_represent
           (λ s, s) demo_url_for_database_image demo_url_for_uploaded_file "/app"
           demo_wide demo_built [1; 0; 0] []);
    [demo_accepted|vm_compute; reflexivity|].
  assert (Forall (λ e, ∀ v, embedding e = Some v → length v = 2%nat)
                 (face_database demo_built)) as Hshape.
  { vm_compute. repeat constructor; intros v [= <-]; reflexivity. }
  intros e v He Hv Hlen. rewrite Forall_forall in Hshape.
  rewrite (Hshape e He v Hv) in Hlen. discriminate.
Defined.

(** An earlier request leaves its upload and its log lines behind; the
    answer to the next request is what it would have been without it. *)
Lemma match_face_response_depends_on_index_witness :
  (demo_match_face (Some demo_no_face)
     (demo_match_face (Some demo_query) demo_built).2).1
  = (demo_match_face (Some demo_no_face) demo_built).1.
Proof.
  apply (match_face_response_depends_on_index Z.ltb (λ d, 1 - d) demo_cosine
           demo_represent (λ s, s) demo_url_for_database_image
           demo_url_for_uploaded_file "/app").
  - demo_accepted.
  - demo_accepted.
  - vm_compute; reflexivity.
  - vm_compute; reflexivity.
  - vm_compute; reflexivity.
Defined.

(** The query is compared with each of the records of the built gallery
    once, in the order of the gallery. *)
Lemma match_face_compares_each_record_once_witness :
  ∃ evs,
    trace (demo_match_face (Some demo_query) demo_built).2 = trace demo_built ++ evs
    ∧ StronglySorted lt (cosine_calls evs)
    ∧ length (cosine_calls evs)
      = length (filter (comparable [1; 0]) (face_database demo_built)).
Proof.
  apply (match_face_compares_each_record_once Z.ltb (λ d, 1 - d) demo_cosine
           demo_represent (λ s, s) demo_url_for_database_image
           demo_url_for_uploaded_file "/app" demo_query demo_built [1; 0] []);
    [demo_accepted|vm_compute; reflexivity].
Defined.

(** The request that saves [me.jpg] leaves the cache file as the build wrote
    it. *)
Lemma match_face_leaves_the_gallery_alone_witness :
  files (demo_match_face (Some demo_query) demo_built).2
    !! Py.join "/app" DB_PICKLE_FILE
  = files demo_built !! Py.join "/app" DB_PICKLE_FILE.
Proof.
  destruct (match_face_leaves_the_gallery_alone Z.ltb (λ d, 1 - d) demo_cosine
              demo_represent (λ s, s) demo_url_for_database_image
              demo_url_for_uploaded_file "/app" (Some demo_query) demo_built)
    as (Hcache & _).
  - intros file [= <-]. vm_compute; reflexivity.
  - exact Hcache.
Defined.

(** The build of the small gallery sets the flag, and a second call only
    logs. *)
Lemma load_database_runs_once_witness :
  database_loaded demo_built = true
  ∧ demo_load_database (demo_load_database demo_start)
    = log INFO DatabaseAlreadyLoaded (demo_load_database demo_start).
Proof.
  destruct (load_database_runs_once demo_represent demo_json_load Pickled "/app"
              demo_start) as [_ Hsecond]; [vm_compute; reflexivity|].
  split; [vm_compute; reflexivity|exact Hsecond].
Defined.
